(** * Food delivery order management: the order lifecycle state machine

    A shallow embedding of the Go packages [models], [statemachine], [db] and
    [handlers], and the properties of the role-gated transition table, the
    transition validator, the allowed-transition query and the status-update
    handler.

    Conventions.
    - Go [string], and the named string types [models.Role] and
      [models.OrderStatus], are [string]; comparison [==] is [decide (_ = _)].
    - a Go [error] is [option E]: [None] is [nil];
    - [map[K]V] is a [gmap K V], a slice is a [list];
    - [time.Time] is an integer instant, [float64] is a binary64 float. *)

From Stdlib Require Import ZArith Ascii.
From Stdlib Require Floats.PrimFloat.
From Stdlib Require Numbers.Cyclic.Int63.Uint63.
From stdpp Require Import base option list strings gmap fin_maps.

Local Open Scope Z_scope.

Abbreviation Time := Z (only parsing).
Abbreviation float64 := PrimFloat.float (only parsing).

(** ** Package [models] *)

Module models.

(** [type Role string] *)
Abbreviation Role := string (only parsing).

Definition RoleCustomer : Role := "customer".
Definition RoleRestaurant : Role := "restaurant".
Definition RoleDriver : Role := "driver".

(** [func (r Role) IsValid() bool] *)
Definition IsValid (r : Role) : bool :=
  if decide (r = RoleCustomer) then true
  else if decide (r = RoleRestaurant) then true
  else if decide (r = RoleDriver) then true
  else false.

Module User.
Record t := mk { ID : string; Name : string; Role : Role }.
End User.

(** [type OrderStatus string] *)
Abbreviation OrderStatus := string (only parsing).

Definition StatusPlaced : OrderStatus := "PLACED".
Definition StatusConfirmed : OrderStatus := "CONFIRMED".
Definition StatusPreparing : OrderStatus := "PREPARING".
Definition StatusReadyForPickup : OrderStatus := "READY_FOR_PICKUP".
Definition StatusPickedUp : OrderStatus := "PICKED_UP".
Definition StatusOutForDelivery : OrderStatus := "OUT_FOR_DELIVERY".
Definition StatusDelivered : OrderStatus := "DELIVERED".
Definition StatusCancelled : OrderStatus := "CANCELLED".

Module OrderItem.
Record t := mk {
  MenuItemID : string;
  Name : string;
  Quantity : Z;
  Price : float64
}.
End OrderItem.

Module StatusChange.
Record t := mk {
  FromStatus : OrderStatus;
  ToStatus : OrderStatus;
  ChangedBy : string;
  Role : Role;
  Timestamp : Time
}.
End StatusChange.

Module Order.
Record t := mk {
  ID : string;
  CustomerID : string;
  RestaurantID : string;
  DriverID : string;
  Items : list OrderItem.t;
  TotalAmount : float64;
  Status : OrderStatus;
  StatusHistory : list StatusChange.t;
  DeliveryAddress : string;
  CreatedAt : Time;
  UpdatedAt : Time
}.

(** Field assignments [order.F = v] of the update handler. *)
Definition setDriverID (v : string) (o : t) : t :=
  mk (ID o) (CustomerID o) (RestaurantID o) v (Items o) (TotalAmount o)
     (Status o) (StatusHistory o) (DeliveryAddress o) (CreatedAt o) (UpdatedAt o).
Definition setStatusHistory (v : list StatusChange.t) (o : t) : t :=
  mk (ID o) (CustomerID o) (RestaurantID o) (DriverID o) (Items o) (TotalAmount o)
     (Status o) v (DeliveryAddress o) (CreatedAt o) (UpdatedAt o).
Definition setStatus (v : OrderStatus) (o : t) : t :=
  mk (ID o) (CustomerID o) (RestaurantID o) (DriverID o) (Items o) (TotalAmount o)
     v (StatusHistory o) (DeliveryAddress o) (CreatedAt o) (UpdatedAt o).
Definition setUpdatedAt (v : Time) (o : t) : t :=
  mk (ID o) (CustomerID o) (RestaurantID o) (DriverID o) (Items o) (TotalAmount o)
     (Status o) (StatusHistory o) (DeliveryAddress o) (CreatedAt o) v.
End Order.

Module UpdateStatusRequest.
Record t := mk { Status : OrderStatus; DriverID : string }.
End UpdateStatusRequest.

Module MenuItem.
Record t := mk {
  ID : string;
  RestaurantID : string;
  Name : string;
  Description : string;
  Price : float64;
  Category : string;
  Available : bool;
  ImageURL : string
}.
End MenuItem.

Module OrderItemRequest.
Record t := mk { MenuItemID : string; Quantity : Z }.
End OrderItemRequest.

Module CreateOrderFromMenuRequest.
Record t := mk {
  RestaurantID : string;
  Items : list OrderItemRequest.t;
  DeliveryAddress : string;
  PaymentMethod : string
}.
End CreateOrderFromMenuRequest.

End models.

(** ** Package [statemachine] *)

Module statemachine.
Import models.

(** [type transition struct]: an allowed state change with the roles that
    may perform it. *)
Record transition := mkTransition {
  To : OrderStatus;
  AllowedRoles : list Role
}.

#[export] Instance transition_eq_dec : EqDecision transition.
Proof. solve_decision. Defined.

(** The key-value pairs of the composite literal of [transitionMap], in the
    order they are written. *)
Definition transitionLiteral : list (OrderStatus * list transition) :=
  [ (StatusPlaced, [
       mkTransition StatusConfirmed [RoleRestaurant];
       mkTransition StatusCancelled [RoleCustomer] ]);
    (StatusConfirmed, [
       mkTransition StatusPreparing [RoleRestaurant];
       mkTransition StatusCancelled [RoleCustomer; RoleRestaurant] ]);
    (StatusPreparing, [
       mkTransition StatusReadyForPickup [RoleRestaurant] ]);
    (StatusReadyForPickup, [
       mkTransition StatusPickedUp [RoleDriver] ]);
    (StatusPickedUp, [
       mkTransition StatusOutForDelivery [RoleDriver] ]);
    (StatusOutForDelivery, [
       mkTransition StatusDelivered [RoleDriver] ]) ].

(** [var transitionMap = map[models.OrderStatus][]transition{...}] *)
Definition transitionMap : gmap string (list transition) :=
  list_to_map transitionLiteral.

(** The three [fmt.Errorf] calls of [ValidateTransition], each with the
    arguments it formats. *)
Inductive TransitionError :=
| ErrTerminal (currentStatus : OrderStatus)
| ErrUnauthorized (role : Role) (currentStatus newStatus : OrderStatus)
| ErrInvalid (currentStatus newStatus : OrderStatus) (validTargets : list string).

(** [%v] of a [[]string]: the elements between brackets, separated by spaces. *)
Definition fmt_v (l : list string) : string :=
  "[" +:+ String.concat " " l +:+ "]".

(** [err.Error()]: the formatted message. *)
Definition Error (e : TransitionError) : string :=
  match e with
  | ErrTerminal cur =>
      "no transitions allowed from status '" +:+ cur +:+ "' (terminal state)"
  | ErrUnauthorized role cur new =>
      "role '" +:+ role +:+ "' is not authorized to transition order from '"
        +:+ cur +:+ "' to '" +:+ new +:+ "'"
  | ErrInvalid cur new validTargets =>
      "invalid transition from '" +:+ cur +:+ "' to '" +:+ new
        +:+ "'; valid transitions: " +:+ fmt_v validTargets
  end.

(** Inner loop of [ValidateTransition]: [true] when the loop returns [nil]
    at an allowed role equal to [role], [false] when it runs to its end. *)
Fixpoint roleLoop (allowedRoles : list Role) (role : Role) : bool :=
  match allowedRoles with
  | [] => false
  | allowedRole :: rest =>
      if decide (allowedRole = role) then true else roleLoop rest role
  end.

(** Outer loop of [ValidateTransition]: [Some r] when the loop returns [r]
    at the first transition whose target is [newStatus], [None] when it
    runs to its end. *)
Fixpoint targetLoop (ts : list transition)
    (currentStatus newStatus : OrderStatus) (role : Role)
    : option (option TransitionError) :=
  match ts with
  | [] => None
  | t :: rest =>
      if decide (To t = newStatus) then
        if roleLoop (AllowedRoles t) role then Some None
        else Some (Some (ErrUnauthorized role currentStatus newStatus))
      else targetLoop rest currentStatus newStatus role
  end.

(** The loop filling [validTargets[i] = string(t.To)]. *)
Fixpoint validTargets (ts : list transition) : list string :=
  match ts with
  | [] => []
  | t :: rest => To t :: validTargets rest
  end.

(** [func ValidateTransition(currentStatus, newStatus, role) error] *)
Definition ValidateTransition
    (currentStatus newStatus : OrderStatus) (role : Role)
    : option TransitionError :=
  match transitionMap !! currentStatus with
  | None => Some (ErrTerminal currentStatus)
  | Some allowedTransitions =>
      match targetLoop allowedTransitions currentStatus newStatus role with
      | Some r => r
      | None =>
          Some (ErrInvalid currentStatus newStatus
                  (validTargets allowedTransitions))
      end
  end.

(** Loop of [GetAllowedTransitions], with [result] the slice built so far. *)
Fixpoint allowedLoop (ts : list transition) (role : Role)
    (result : list OrderStatus) : list OrderStatus :=
  match ts with
  | [] => result
  | t :: rest =>
      if decide (role = "") then allowedLoop rest role (result ++ [To t])
      else if roleLoop (AllowedRoles t) role
           then allowedLoop rest role (result ++ [To t])
           else allowedLoop rest role result
  end.

(** [func GetAllowedTransitions(currentStatus, role) []models.OrderStatus];
    the [nil] slice is the empty list. *)
Definition GetAllowedTransitions
    (currentStatus : OrderStatus) (role : Role) : list OrderStatus :=
  match transitionMap !! currentStatus with
  | None => []
  | Some transitions => allowedLoop transitions role []
  end.

End statemachine.

(** ** Package [db] *)

Module db.
Import models.

(** A call of the MongoDB driver, as the server receives it. *)
Inductive Call :=
| FindUser (id : string)
| FindOrder (id : string)
| FindMenuItem (id : string)
| ReplaceOrder (doc : Order.t).

(** What the handlers run against: the three collections of the [Store],
    each a map from [_id] to its document; the outcome of the driver calls to
    come ([Some msg] is a call that fails with the error [msg], and a call
    past the end of the list is answered); and the calls made so far.
    A call that fails leaves the collections as they were, and a document
    read back is the document written (an instant is kept whole, where the
    driver stores it to the millisecond). *)
Record World := mkWorld {
  users : gmap string User.t;
  orders : gmap string Order.t;
  menuItems : gmap string MenuItem.t;
  faults : list (option string);
  journal : list Call
}.

(** Store operations: state passing over the [World]. *)
Definition DB (A : Type) : Type := World → A * World.

#[export] Instance DB_ret : MRet DB := λ A a w, (a, w).
#[export] Instance DB_bind : MBind DB :=
  λ A B f m w, let '(a, w') := m w in f a w'.

(** One driver call: it is recorded, and takes the next outcome. *)
Definition call (c : Call) : DB (option string) := λ w,
  match faults w with
  | [] =>
      (None, mkWorld (users w) (orders w) (menuItems w) [] (journal w ++ [c]))
  | f :: rest =>
      (f, mkWorld (users w) (orders w) (menuItems w) rest (journal w ++ [c]))
  end.

Definition read {A} (f : World → A) : DB A := λ w, (f w, w).

Definition replaceOrder (doc : Order.t) : DB unit := λ w,
  (tt, mkWorld (users w) (<[Order.ID doc := doc]> (orders w)) (menuItems w)
               (faults w) (journal w)).

(** [func (s *Store) GetUser(id string)], returning a user and an [error]: the pair is
    a sum, as every caller tests [err] before it reads the user. *)
Definition GetUser (id : string) : DB (User.t + string) :=
  f ← call (FindUser id);
  match f with
  | Some err => mret (inr err)
  | None =>
      u ← read (λ w, users w !! id);
      mret (match u with
            | None => inr ("user not found: " +:+ id)
            | Some user => inl user
            end)
  end.

(** [func (s *Store) SaveOrder(order *models.Order) error]: replace by
    [_id], inserting when there is none. *)
Definition SaveOrder (order : Order.t) : DB (option string) :=
  f ← call (ReplaceOrder order);
  match f with
  | Some err => mret (Some err)
  | None => _ ← replaceOrder order; mret None
  end.

(** [func (s *Store) GetOrder(id string)], returning an order and an [error] *)
Definition GetOrder (id : string) : DB (Order.t + string) :=
  f ← call (FindOrder id);
  match f with
  | Some err => mret (inr err)
  | None =>
      o ← read (λ w, orders w !! id);
      mret (match o with
            | None => inr ("order not found: " +:+ id)
            | Some order => inl order
            end)
  end.

(** [func (s *Store) GetMenuItem(id string)], returning an item and an [error] *)
Definition GetMenuItem (id : string) : DB (MenuItem.t + string) :=
  f ← call (FindMenuItem id);
  match f with
  | Some err => mret (inr err)
  | None =>
      i ← read (λ w, menuItems w !! id);
      mret (match i with
            | None => inr ("menu item not found: " +:+ id)
            | Some item => inl item
            end)
  end.

End db.

Import models statemachine db.

(** ** Package [handlers] *)

Module http.
Definition StatusOK : Z := 200.
Definition StatusCreated : Z := 201.
Definition StatusBadRequest : Z := 400.
Definition StatusUnauthorized : Z := 401.
Definition StatusForbidden : Z := 403.
Definition StatusNotFound : Z := 404.
Definition StatusInternalServerError : Z := 500.
End http.

Module handlers.

(** The value a handler encodes as the body of its response. *)
Inductive Body :=
| ErrorBody (message : string)
| OrderBody (order : Order.t)
| HistoryBody (history : list StatusChange.t)
| TransitionsBody (current_status : OrderStatus)
    (allowed_transitions : list OrderStatus)
| TextBody (text : string).

Record Response := mkResponse { code : Z; body : Body }.

(** [func respondJSON(w, statusCode, data)] *)
Definition respondJSON (statusCode : Z) (data : Body) : Response :=
  mkResponse statusCode data.

(** [func respondError(w, statusCode, message)] *)
Definition respondError (statusCode : Z) (message : string) : Response :=
  respondJSON statusCode (ErrorBody message).

(** The message [AuthMiddleware] hands to [http.Error]. *)
Definition missingHeaders : string :=
  let q := String (Ascii.ascii_of_nat 34) "" in
  "{" +:+ q +:+ "error" +:+ q +:+ ": " +:+ q
    +:+ "X-User-ID and X-User-Role headers are required" +:+ q +:+ "}".

(** [func AuthMiddleware(next http.Handler) http.Handler]: [userID] and
    [userRole] are the two headers, and [next] reads them back from the
    request context. Neither is checked against the users or the roles. *)
Definition AuthMiddleware (next : string → string → DB Response)
    (userID userRole : string) : DB Response :=
  if decide (userID = "" ∨ userRole = "") then
    mret (mkResponse http.StatusUnauthorized (TextBody missingHeaders))
  else next userRole userID.

(** [float64(n)] for an [int] [n]. *)
Definition float64_of_int (n : Z) : float64 :=
  if decide (0 ≤ n) then PrimFloat.of_uint63 (Uint63.of_Z n)
  else PrimFloat.opp (PrimFloat.of_uint63 (Uint63.of_Z (- n))).

(** The loop of [CreateOrder] over [req.Items]: [inl] is the response of an
    early [return], [inr] the order items and the total when it ends. *)
Fixpoint itemLoop (items : list OrderItemRequest.t) (restaurantID : string)
    (orderItems : list OrderItem.t) (total : float64)
    : DB (Response + list OrderItem.t * float64) :=
  match items with
  | [] => mret (inr (orderItems, total))
  | ri :: rest =>
      if decide (OrderItemRequest.Quantity ri ≤ 0) then
        mret (inl (respondError http.StatusBadRequest "Quantity must be at least 1"))
      else
        r ← GetMenuItem (OrderItemRequest.MenuItemID ri);
        match r with
        | inr _ =>
            mret (inl (respondError http.StatusBadRequest
                         ("Menu item not found: " +:+ OrderItemRequest.MenuItemID ri)))
        | inl menuItem =>
            if decide (MenuItem.RestaurantID menuItem ≠ restaurantID) then
              mret (inl (respondError http.StatusBadRequest
                           ("Menu item " +:+ MenuItem.Name menuItem
                              +:+ " does not belong to this restaurant")))
            else if negb (MenuItem.Available menuItem) then
              mret (inl (respondError http.StatusBadRequest
                           ("Menu item '" +:+ MenuItem.Name menuItem
                              +:+ "' is currently unavailable")))
            else
              itemLoop rest restaurantID
                (orderItems ++ [OrderItem.mk (MenuItem.ID menuItem)
                                  (MenuItem.Name menuItem)
                                  (OrderItemRequest.Quantity ri)
                                  (MenuItem.Price menuItem)])
                (PrimFloat.add total
                   (PrimFloat.mul (MenuItem.Price menuItem)
                      (float64_of_int (OrderItemRequest.Quantity ri))))
        end
  end.

(** [func (h *OrderHandler) CreateOrder(w, r)]: [role] and [userID] come
    from the request context, [req] is the decoded body ([None] when it does
    not decode), [newID] is [uuid.New().String()] and [now] is [time.Now()]. *)
Definition CreateOrder (role userID : string)
    (req : option CreateOrderFromMenuRequest.t) (newID : string) (now : Time)
    : DB Response :=
  if decide (role ≠ RoleCustomer) then
    mret (respondError http.StatusForbidden "Only customers can create orders")
  else match req with
  | None => mret (respondError http.StatusBadRequest "Invalid request body")
  | Some req =>
    if decide (CreateOrderFromMenuRequest.RestaurantID req = "") then
      mret (respondError http.StatusBadRequest "restaurant_id is required")
    else if decide (length (CreateOrderFromMenuRequest.Items req) = 0%nat) then
      mret (respondError http.StatusBadRequest "At least one item is required")
    else if decide (CreateOrderFromMenuRequest.DeliveryAddress req = "") then
      mret (respondError http.StatusBadRequest "delivery_address is required")
    else
      restaurant ← GetUser (CreateOrderFromMenuRequest.RestaurantID req);
      match restaurant with
      | inr _ => mret (respondError http.StatusBadRequest "Invalid restaurant_id")
      | inl restaurant =>
        if decide (User.Role restaurant ≠ RoleRestaurant) then
          mret (respondError http.StatusBadRequest "Invalid restaurant_id")
        else
          l ← itemLoop (CreateOrderFromMenuRequest.Items req)
                (CreateOrderFromMenuRequest.RestaurantID req) [] PrimFloat.zero;
          match l with
          | inl response => mret response
          | inr (orderItems, total) =>
            let order :=
              Order.mk newID userID (CreateOrderFromMenuRequest.RestaurantID req)
                "" orderItems total StatusPlaced
                [StatusChange.mk "" StatusPlaced userID RoleCustomer now]
                (CreateOrderFromMenuRequest.DeliveryAddress req) now now in
            err ← SaveOrder order;
            match err with
            | Some _ =>
                mret (respondError http.StatusInternalServerError "Failed to save order")
            | None => mret (respondJSON http.StatusCreated (OrderBody order))
            end
          end
      end
  end.

(** [UpdateOrderStatus] from the decoding of the body on, with [order] the
    order that [GetOrder] returned: the validation, the two-pass choice
    between 403 and 400, the driver assignment, the history entry and the
    save. *)
Definition UpdateOrderStatus_loaded (order : Order.t) (role userID : string)
    (req : option UpdateStatusRequest.t) (now : Time) : DB Response :=
  match req with
  | None => mret (respondError http.StatusBadRequest "Invalid request body")
  | Some req =>
    match ValidateTransition (Order.Status order)
            (UpdateStatusRequest.Status req) role with
    | Some err =>
        let allRoleErr :=
          ValidateTransition (Order.Status order)
            (UpdateStatusRequest.Status req) RoleCustomer in
        let allRoleErr :=
          match allRoleErr with
          | Some _ =>
              ValidateTransition (Order.Status order)
                (UpdateStatusRequest.Status req) RoleRestaurant
          | None => allRoleErr
          end in
        let allRoleErr :=
          match allRoleErr with
          | Some _ =>
              ValidateTransition (Order.Status order)
                (UpdateStatusRequest.Status req) RoleDriver
          | None => allRoleErr
          end in
        match allRoleErr with
        | None => mret (respondError http.StatusForbidden (Error err))
        | Some _ => mret (respondError http.StatusBadRequest (Error err))
        end
    | None =>
        let order :=
          if decide (UpdateStatusRequest.Status req = StatusPickedUp
                     ∧ Order.DriverID order = "")
          then Order.setDriverID userID order else order in
        let order :=
          Order.setStatusHistory
            (Order.StatusHistory order
               ++ [StatusChange.mk (Order.Status order)
                     (UpdateStatusRequest.Status req) userID role now])
            order in
        let order := Order.setStatus (UpdateStatusRequest.Status req) order in
        let order := Order.setUpdatedAt now order in
        err ← SaveOrder order;
        match err with
        | Some _ =>
            mret (respondError http.StatusInternalServerError "Failed to update order")
        | None => mret (respondJSON http.StatusOK (OrderBody order))
        end
    end
  end.

(** [func (h *OrderHandler) UpdateOrderStatus(w, r)]: [id] is the path
    variable, [role] and [userID] come from the request context, [req] is the
    decoded body ([None] when it does not decode) and [now] is [time.Now()]. *)
Definition UpdateOrderStatus (id role userID : string)
    (req : option UpdateStatusRequest.t) (now : Time) : DB Response :=
  r ← GetOrder id;
  match r with
  | inr err => mret (respondError http.StatusNotFound err)
  | inl order => UpdateOrderStatus_loaded order role userID req now
  end.


(** [func (h *OrderHandler) GetAllowedTransitions(w, r)] *)
Definition GetAllowedTransitions (id role : string) : DB Response :=
  r ← GetOrder id;
  match r with
  | inr err => mret (respondError http.StatusNotFound err)
  | inl order =>
      mret (respondJSON http.StatusOK
              (TransitionsBody (Order.Status order)
                 (statemachine.GetAllowedTransitions (Order.Status order) role)))
  end.

End handlers.

(** ** The concurrent server

    [http.ListenAndServe] serves every request in a goroutine of its own, and
    the handlers hold no lock: what two requests share is the database, which
    answers one driver call at a time. A goroutine serving
    [UpdateOrderStatus] therefore takes two steps that others can come
    between: the [GetOrder] call, and the rest of the handler up to its
    response, with its one [SaveOrder] call. *)

Module server.
Import handlers.

Record Request := mkRequest {
  id : string;
  role : string;
  userID : string;
  req : option UpdateStatusRequest.t;
  now : Time
}.

Inductive Goroutine :=
| Serving (r : Request)
| Loaded (r : Request) (order : Order.t)
| Responded (response : Response).

Definition step (g : Goroutine) : DB Goroutine :=
  match g with
  | Serving r =>
      x ← GetOrder (id r);
      mret (match x with
            | inr err => Responded (respondError http.StatusNotFound err)
            | inl order => Loaded r order
            end)
  | Loaded r order =>
      response ← UpdateOrderStatus_loaded order (role r) (userID r) (req r) (now r);
      mret (Responded response)
  | Responded response => mret (Responded response)
  end.

(** The goroutines run by a schedule: each entry names the goroutine that
    takes the next step. *)
Fixpoint run (schedule : list nat) (gs : list Goroutine) : DB (list Goroutine) :=
  match schedule with
  | [] => mret gs
  | i :: rest =>
      match gs !! i with
      | None => run rest gs
      | Some g => g' ← step g; run rest (<[i := g']> gs)
      end
  end.

(** A goroutine that has read the order and has not yet responded. *)
Definition inSequence (g : Goroutine) : bool :=
  match g with Loaded _ _ => true | _ => false end.

End server.

(** ** Package [db], the operations on users and menu items and the listings

    These calls take their outcome from [faults] as the others do; the
    journal keeps to the calls of [Call]. *)

Module store.

(** One driver call that is not one of [Call]: it takes the next outcome. *)
Definition driver : DB (option string) := λ w,
  match faults w with
  | [] => (None, w)
  | f :: rest =>
      (f, mkWorld (users w) (orders w) (menuItems w) rest (journal w))
  end.

Definition replaceUser (doc : User.t) : DB unit := λ w,
  (tt, mkWorld (<[User.ID doc := doc]> (users w)) (orders w) (menuItems w)
               (faults w) (journal w)).

Definition replaceMenuItem (doc : MenuItem.t) : DB unit := λ w,
  (tt, mkWorld (users w) (orders w) (<[MenuItem.ID doc := doc]> (menuItems w))
               (faults w) (journal w)).

Definition deleteMenuItem (id : string) : DB unit := λ w,
  (tt, mkWorld (users w) (orders w) (delete id (menuItems w))
               (faults w) (journal w)).

(** [func (s *Store) SaveUser(user *models.User) error] *)
Definition SaveUser (user : User.t) : DB (option string) :=
  f ← driver;
  match f with
  | Some err => mret (Some err)
  | None => _ ← replaceUser user; mret None
  end.

(** [func (s *Store) ListUsers(roleFilter models.Role)]: the query and the
    reading of its cursor are one call; the users come in the order the
    collection hands them, here the map's; [nil] is replaced by the empty
    slice, which is the same list. *)
Definition ListUsers (roleFilter : Role) : DB (list User.t + string) :=
  f ← driver;
  match f with
  | Some err => mret (inr err)
  | None =>
      all ← read (λ w, (map_to_list (users w)).*2);
      mret (inl (if decide (roleFilter ≠ "")
                 then filter (λ u, User.Role u = roleFilter) all
                 else all))
  end.

(** [func (s *Store) ListOrders(statusFilter models.OrderStatus)] *)
Definition ListOrders (statusFilter : OrderStatus) : DB (list Order.t + string) :=
  f ← driver;
  match f with
  | Some err => mret (inr err)
  | None =>
      all ← read (λ w, (map_to_list (orders w)).*2);
      mret (inl (if decide (statusFilter ≠ "")
                 then filter (λ o, Order.Status o = statusFilter) all
                 else all))
  end.

(** [func (s *Store) SaveMenuItem(item *models.MenuItem) error] *)
Definition SaveMenuItem (item : MenuItem.t) : DB (option string) :=
  f ← driver;
  match f with
  | Some err => mret (Some err)
  | None => _ ← replaceMenuItem item; mret None
  end.

(** [func (s *Store) ListMenuItems(restaurantID string)] *)
Definition ListMenuItems (restaurantID : string) : DB (list MenuItem.t + string) :=
  f ← driver;
  match f with
  | Some err => mret (inr err)
  | None =>
      all ← read (λ w, (map_to_list (menuItems w)).*2);
      mret (inl (filter (λ i, MenuItem.RestaurantID i = restaurantID) all))
  end.

(** [func (s *Store) DeleteMenuItem(id string) error]: deleting what is not
    there is no error. *)
Definition DeleteMenuItem (id : string) : DB (option string) :=
  f ← driver;
  match f with
  | Some err => mret (Some err)
  | None => _ ← deleteMenuItem id; mret None
  end.

End store.

(** ** Package [handlers], the other handlers *)

Module rest.

Module CreateUserRequest.
Record t := mk { Name : string; Role : Role }.
End CreateUserRequest.

Module CreateMenuItemRequest.
Record t := mk {
  Name : string;
  Description : string;
  Price : float64;
  Category : string;
  ImageURL : string
}.
End CreateMenuItemRequest.

(** The values these handlers encode as the body of a response. *)
Inductive Body :=
| ErrorBody (message : string)
| UserBody (user : User.t)
| UsersBody (users : list User.t)
| OrderBody (order : Order.t)
| OrdersBody (orders : list Order.t)
| MenuItemBody (item : MenuItem.t)
| MenuBody (items : list MenuItem.t)
| MessageBody (message : string).

Record Response := mkResponse { code : Z; body : Body }.

Definition respondJSON (statusCode : Z) (data : Body) : Response :=
  mkResponse statusCode data.

Definition respondError (statusCode : Z) (message : string) : Response :=
  respondJSON statusCode (ErrorBody message).

(** [func (h *UserHandler) RegisterUser(w, r)]: [req] is the decoded body,
    [newID] is [uuid.New().String()]. *)
Definition RegisterUser (req : option CreateUserRequest.t) (newID : string)
    : DB Response :=
  match req with
  | None => mret (respondError http.StatusBadRequest "Invalid request body")
  | Some req =>
    if decide (CreateUserRequest.Name req = "") then
      mret (respondError http.StatusBadRequest "Name is required")
    else if negb (IsValid (CreateUserRequest.Role req)) then
      mret (respondError http.StatusBadRequest
              "Role must be one of: customer, restaurant, driver")
    else
      let user :=
        User.mk newID (CreateUserRequest.Name req) (CreateUserRequest.Role req) in
      err ← store.SaveUser user;
      match err with
      | Some _ =>
          mret (respondError http.StatusInternalServerError "Failed to save user")
      | None => mret (respondJSON http.StatusCreated (UserBody user))
      end
  end.

(** [func (h *UserHandler) GetUser(w, r)] *)
Definition GetUser (id : string) : DB Response :=
  r ← db.GetUser id;
  match r with
  | inr err => mret (respondError http.StatusNotFound err)
  | inl user => mret (respondJSON http.StatusOK (UserBody user))
  end.

(** [func (h *UserHandler) ListUsers(w, r)]: [roleFilter] is the [role]
    query parameter, empty when there is none. *)
Definition ListUsers (roleFilter : string) : DB Response :=
  r ← store.ListUsers roleFilter;
  match r with
  | inr _ =>
      mret (respondError http.StatusInternalServerError "Failed to fetch users")
  | inl users => mret (respondJSON http.StatusOK (UsersBody users))
  end.

(** [func (h *OrderHandler) GetOrder(w, r)] *)
Definition GetOrder (id : string) : DB Response :=
  r ← db.GetOrder id;
  match r with
  | inr err => mret (respondError http.StatusNotFound err)
  | inl order => mret (respondJSON http.StatusOK (OrderBody order))
  end.

(** [func (h *OrderHandler) ListOrders(w, r)]: [statusFilter] is the
    [status] query parameter, empty when there is none. *)
Definition ListOrders (statusFilter : string) : DB Response :=
  r ← store.ListOrders statusFilter;
  match r with
  | inr _ =>
      mret (respondError http.StatusInternalServerError "Failed to fetch orders")
  | inl orders => mret (respondJSON http.StatusOK (OrdersBody orders))
  end.

(** [func (h *MenuHandler) AddMenuItem(w, r)]: [restaurantID] is the path
    variable, [role] and [userID] come from the request context. *)
Definition AddMenuItem (restaurantID role userID : string)
    (req : option CreateMenuItemRequest.t) (newID : string) : DB Response :=
  if decide (role ≠ RoleRestaurant) then
    mret (respondError http.StatusForbidden "Only restaurants can manage menus")
  else if decide (userID ≠ restaurantID) then
    mret (respondError http.StatusForbidden "You can only manage your own menu")
  else match req with
  | None => mret (respondError http.StatusBadRequest "Invalid request body")
  | Some req =>
    if decide (CreateMenuItemRequest.Name req = "") then
      mret (respondError http.StatusBadRequest "Dish name is required")
    else if PrimFloat.leb (CreateMenuItemRequest.Price req) PrimFloat.zero then
      mret (respondError http.StatusBadRequest "Price must be greater than 0")
    else
      let category :=
        if decide (CreateMenuItemRequest.Category req = "") then "General"
        else CreateMenuItemRequest.Category req in
      let item :=
        MenuItem.mk newID restaurantID (CreateMenuItemRequest.Name req)
          (CreateMenuItemRequest.Description req)
          (CreateMenuItemRequest.Price req) category true
          (CreateMenuItemRequest.ImageURL req) in
      err ← store.SaveMenuItem item;
      match err with
      | Some _ =>
          mret (respondError http.StatusInternalServerError
                  "Failed to save menu item")
      | None => mret (respondJSON http.StatusCreated (MenuItemBody item))
      end
  end.

(** [func (h *MenuHandler) GetMenu(w, r)] *)
Definition GetMenu (restaurantID : string) : DB Response :=
  r ← store.ListMenuItems restaurantID;
  match r with
  | inr _ =>
      mret (respondError http.StatusInternalServerError "Failed to fetch menu")
  | inl items => mret (respondJSON http.StatusOK (MenuBody items))
  end.

(** [func (h *MenuHandler) DeleteMenuItem(w, r)] *)
Definition DeleteMenuItem (restaurantID itemID role userID : string)
    : DB Response :=
  if decide (role ≠ RoleRestaurant ∨ userID ≠ restaurantID) then
    mret (respondError http.StatusForbidden "You can only manage your own menu")
  else
    r ← db.GetMenuItem itemID;
    match r with
    | inr _ => mret (respondError http.StatusNotFound "Menu item not found")
    | inl item =>
      if decide (MenuItem.RestaurantID item ≠ restaurantID) then
        mret (respondError http.StatusForbidden
                "Item does not belong to your restaurant")
      else
        err ← store.DeleteMenuItem itemID;
        match err with
        | Some _ =>
            mret (respondError http.StatusInternalServerError
                    "Failed to delete menu item")
        | None => mret (respondJSON http.StatusOK (MessageBody "Menu item deleted"))
        end
    end.

End rest.

(** * What the properties are stated with *)

(** The eight rules as the specification lists them, row by row: from-status,
    to-status and allowed roles. *)
Definition spec_rules : list (OrderStatus * OrderStatus * list Role) :=
  [ (StatusPlaced, StatusConfirmed, [RoleRestaurant]);
    (StatusPlaced, StatusCancelled, [RoleCustomer]);
    (StatusConfirmed, StatusPreparing, [RoleRestaurant]);
    (StatusConfirmed, StatusCancelled, [RoleCustomer; RoleRestaurant]);
    (StatusPreparing, StatusReadyForPickup, [RoleRestaurant]);
    (StatusReadyForPickup, StatusPickedUp, [RoleDriver]);
    (StatusPickedUp, StatusOutForDelivery, [RoleDriver]);
    (StatusOutForDelivery, StatusDelivered, [RoleDriver]) ].

(** The statuses of the enumeration other than the two terminal ones. *)
Definition nonTerminal : list OrderStatus :=
  [ StatusPlaced; StatusConfirmed; StatusPreparing; StatusReadyForPickup;
    StatusPickedUp; StatusOutForDelivery ].

(** The rules of the table: every (from, to, roles) it holds, entry by entry. *)
Definition tableRules : list (OrderStatus * OrderStatus * list Role) :=
  '(from, rules) ← map_to_list transitionMap;
  (λ t, (from, To t, AllowedRoles t)) <$> rules.

(** The status code the specification gives a rejection: forbidden for an
    unauthorized actor, bad request for a terminal status and for an illegal
    transition. *)
Definition spec_statusCode (e : TransitionError) : Z :=
  match e with
  | ErrUnauthorized _ _ _ => 403
  | ErrTerminal _ => 400
  | ErrInvalid _ _ _ => 400
  end.

(** The order the handler saves on acceptance, field by field. *)
Definition accepted (order : Order.t) (role userID : string)
    (req : UpdateStatusRequest.t) (now : Time) (order' : Order.t) : Prop :=
  Order.ID order' = Order.ID order
  ∧ Order.CustomerID order' = Order.CustomerID order
  ∧ Order.RestaurantID order' = Order.RestaurantID order
  ∧ Order.DriverID order'
    = (if decide (UpdateStatusRequest.Status req = StatusPickedUp
                  ∧ Order.DriverID order = "")
       then userID else Order.DriverID order)
  ∧ Order.Items order' = Order.Items order
  ∧ Order.TotalAmount order' = Order.TotalAmount order
  ∧ Order.Status order' = UpdateStatusRequest.Status req
  ∧ Order.StatusHistory order'
    = Order.StatusHistory order
        ++ [StatusChange.mk (Order.Status order)
              (UpdateStatusRequest.Status req) userID role now]
  ∧ Order.DeliveryAddress order' = Order.DeliveryAddress order
  ∧ Order.CreatedAt order' = Order.CreatedAt order
  ∧ Order.UpdatedAt order' = now.

(** The orders the two handlers produce: the order of a 201 of [CreateOrder],
    and the order of a 200 of [UpdateOrderStatus] that has read an order
    produced before. *)
Inductive Produced : Order.t → Prop :=
| Produced_create (role userID : string)
    (req : option CreateOrderFromMenuRequest.t) (newID : string) (now : Time)
    (w : World) (order : Order.t) :
    (handlers.CreateOrder role userID req newID now w).1
    = handlers.respondJSON http.StatusCreated (handlers.OrderBody order) →
    Produced order
| Produced_update (id role userID : string) (req : option UpdateStatusRequest.t)
    (now : Time) (w : World) (order order' : Order.t) :
    Produced order →
    (GetOrder id w).1 = inl order →
    (handlers.UpdateOrderStatus id role userID req now w).1
    = handlers.respondJSON http.StatusOK (handlers.OrderBody order') →
    Produced order'.

(** A walk of the lifecycle: each status is followed by one that the
    validator accepts from it, for some role. *)
Inductive Walk : list OrderStatus → Prop :=
| Walk_nil : Walk []
| Walk_one (S : OrderStatus) : Walk [S]
| Walk_step (S T : OrderStatus) (role : Role) (l : list OrderStatus) :
    ValidateTransition S T role = None → Walk (T :: l) → Walk (S :: T :: l).

(** How far a status is along the lifecycle; a string that is no status
    counts as an end. *)
Definition rank (S : OrderStatus) : nat :=
  if decide (S = StatusPlaced) then 0
  else if decide (S = StatusConfirmed) then 1
  else if decide (S = StatusPreparing) then 2
  else if decide (S = StatusReadyForPickup) then 3
  else if decide (S = StatusPickedUp) then 4
  else if decide (S = StatusOutForDelivery) then 5
  else 6.

(** The entries of a history after the status [prev]: each starts from the
    status the one before it reached, and is a transition that the validator
    accepts for the role the entry records. *)
Fixpoint legalFrom (prev : OrderStatus) (history : list StatusChange.t) : Prop :=
  match history with
  | [] => True
  | e :: rest =>
      StatusChange.FromStatus e = prev
      ∧ ValidateTransition prev (StatusChange.ToStatus e) (StatusChange.Role e)
        = None
      ∧ legalFrom (StatusChange.ToStatus e) rest
  end.

(** A history that opens with a creation entry, by a customer, and goes on
    by accepted transitions. *)
Definition legalHistory (history : list StatusChange.t) : Prop :=
  ∃ e rest, history = e :: rest
    ∧ StatusChange.FromStatus e = ""
    ∧ StatusChange.ToStatus e = StatusPlaced
    ∧ StatusChange.Role e = RoleCustomer
    ∧ legalFrom StatusPlaced rest.

(** An order whose history is legal and whose status is the one its history
    has reached. *)
Definition sound (order : Order.t) : Prop :=
  legalHistory (Order.StatusHistory order)
  ∧ StatusChange.ToStatus <$> last (Order.StatusHistory order)
    = Some (Order.Status order).

(** Every order is stored under its own id. *)
Definition keyed (w : World) : Prop :=
  ∀ k order, orders w !! k = Some order → Order.ID order = k.

(** An order item against the request item it comes from: the quantity is
    positive, and the requested menu item is stored, belongs to the
    restaurant and is available; the order item copies its id, name and
    price. *)
Definition itemOf (menu : gmap string MenuItem.t) (restaurantID : string)
    (ri : OrderItemRequest.t) (oi : OrderItem.t) : Prop :=
  0 < OrderItemRequest.Quantity ri
  ∧ ∃ m, menu !! OrderItemRequest.MenuItemID ri = Some m
      ∧ MenuItem.RestaurantID m = restaurantID
      ∧ MenuItem.Available m = true
      ∧ oi = OrderItem.mk (MenuItem.ID m) (MenuItem.Name m)
               (OrderItemRequest.Quantity ri) (MenuItem.Price m).

(** A running total with one more order item: its price times its
    quantity, added in binary64. *)
Definition addLine (total : float64) (oi : OrderItem.t) : float64 :=
  PrimFloat.add total
    (PrimFloat.mul (OrderItem.Price oi)
       (handlers.float64_of_int (OrderItem.Quantity oi))).

(** ** A run of the handlers *)

Module sample.

Definition restaurant : User.t := User.mk "r1" "Trattoria" RoleRestaurant.
Definition customer : User.t := User.mk "c1" "Ada" RoleCustomer.
Definition driver : User.t := User.mk "d1" "Dan" RoleDriver.

Definition pizza : MenuItem.t :=
  MenuItem.mk "m1" "r1" "Pizza" "Margherita" (handlers.float64_of_int 9) "main" true "".

(** The database before any order: no fault to come, no call made. *)
Definition empty : World :=
  mkWorld {[ "r1" := restaurant; "c1" := customer; "d1" := driver ]}
    ∅ {[ "m1" := pizza ]} [] [].

Definition menuRequest : CreateOrderFromMenuRequest.t :=
  CreateOrderFromMenuRequest.mk "r1" [OrderItemRequest.mk "m1" 2]
    "1 Main Street" "card".

(** The customer places order [o1] at instant 10. *)
Definition placed : handlers.Response * World :=
  handlers.CreateOrder "customer" "c1" (Some menuRequest) "o1" 10 empty.

(** The restaurant confirms it at instant 20. *)
Definition confirmed : handlers.Response * World :=
  handlers.UpdateOrderStatus "o1" "restaurant" "r1"
    (Some (UpdateStatusRequest.mk StatusConfirmed "")) 20 placed.2.

(** The order goes on to its delivery, each step by the role it takes. *)
Definition preparing : handlers.Response * World :=
  handlers.UpdateOrderStatus "o1" "restaurant" "r1"
    (Some (UpdateStatusRequest.mk StatusPreparing "")) 30 confirmed.2.
Definition ready : handlers.Response * World :=
  handlers.UpdateOrderStatus "o1" "restaurant" "r1"
    (Some (UpdateStatusRequest.mk StatusReadyForPickup "")) 40 preparing.2.
Definition pickedUp : handlers.Response * World :=
  handlers.UpdateOrderStatus "o1" "driver" "d1"
    (Some (UpdateStatusRequest.mk StatusPickedUp "")) 50 ready.2.
Definition outForDelivery : handlers.Response * World :=
  handlers.UpdateOrderStatus "o1" "driver" "d1"
    (Some (UpdateStatusRequest.mk StatusOutForDelivery "")) 60 pickedUp.2.
Definition delivered : handlers.Response * World :=
  handlers.UpdateOrderStatus "o1" "driver" "d1"
    (Some (UpdateStatusRequest.mk StatusDelivered "")) 70 outForDelivery.2.

(** Two requests on the confirmed order: the restaurant starts preparing it,
    the customer cancels it. *)
Definition prepare : server.Request :=
  server.mkRequest "o1" "restaurant" "r1"
    (Some (UpdateStatusRequest.mk StatusPreparing "")) 30.
Definition cancel : server.Request :=
  server.mkRequest "o1" "customer" "c1"
    (Some (UpdateStatusRequest.mk StatusCancelled "")) 31.

(** The order as placed, and as confirmed. *)
Definition order0 : Order.t :=
  Order.mk "o1" "c1" "r1" ""
    [OrderItem.mk "m1" "Pizza" 2 (handlers.float64_of_int 9)]
    (handlers.float64_of_int 18) StatusPlaced
    [StatusChange.mk "" StatusPlaced "c1" RoleCustomer 10]
    "1 Main Street" 10 10.
Definition order1 : Order.t :=
  Order.mk "o1" "c1" "r1" ""
    [OrderItem.mk "m1" "Pizza" 2 (handlers.float64_of_int 9)]
    (handlers.float64_of_int 18) StatusConfirmed
    [StatusChange.mk "" StatusPlaced "c1" RoleCustomer 10;
     StatusChange.mk StatusPlaced StatusConfirmed "r1" RoleRestaurant 20]
    "1 Main Street" 10 20.

Definition order3 : Order.t :=
  Order.mk "o1" "c1" "r1" ""
    [OrderItem.mk "m1" "Pizza" 2 (handlers.float64_of_int 9)]
    (handlers.float64_of_int 18) StatusReadyForPickup
    [StatusChange.mk "" StatusPlaced "c1" RoleCustomer 10;
     StatusChange.mk StatusPlaced StatusConfirmed "r1" RoleRestaurant 20;
     StatusChange.mk StatusConfirmed StatusPreparing "r1" RoleRestaurant 30;
     StatusChange.mk StatusPreparing StatusReadyForPickup "r1" RoleRestaurant 40]
    "1 Main Street" 10 40.

End sample.

(** The order of the run as the restaurant prepares it and as the driver
    picks it up. *)
Module journey.

Definition order2 : Order.t :=
  Order.mk "o1" "c1" "r1" ""
    [OrderItem.mk "m1" "Pizza" 2 (handlers.float64_of_int 9)]
    (handlers.float64_of_int 18) StatusPreparing
    [StatusChange.mk "" StatusPlaced "c1" RoleCustomer 10;
     StatusChange.mk StatusPlaced StatusConfirmed "r1" RoleRestaurant 20;
     StatusChange.mk StatusConfirmed StatusPreparing "r1" RoleRestaurant 30]
    "1 Main Street" 10 30.

Definition order4 : Order.t :=
  Order.mk "o1" "c1" "r1" "d1"
    [OrderItem.mk "m1" "Pizza" 2 (handlers.float64_of_int 9)]
    (handlers.float64_of_int 18) StatusPickedUp
    [StatusChange.mk "" StatusPlaced "c1" RoleCustomer 10;
     StatusChange.mk StatusPlaced StatusConfirmed "r1" RoleRestaurant 20;
     StatusChange.mk StatusConfirmed StatusPreparing "r1" RoleRestaurant 30;
     StatusChange.mk StatusPreparing StatusReadyForPickup "r1" RoleRestaurant 40;
     StatusChange.mk StatusReadyForPickup StatusPickedUp "d1" RoleDriver 50]
    "1 Main Street" 10 50.

End journey.

(** * Properties *)

(** ** The transition table *)

Lemma transitionMap_lookup_Some (S : OrderStatus) (rules : list transition) :
  transitionMap !! S = Some rules ↔ (S, rules) ∈ transitionLiteral.
Proof.
  unfold transitionMap. symmetry. apply elem_of_list_to_map.
  compute_done.
Qed.

Lemma transitionMap_lookup_None (S : OrderStatus) :
  transitionMap !! S = None ↔ S ∉ transitionLiteral.*1.
Proof. unfold transitionMap. symmetry. apply not_elem_of_list_to_map. Qed.

(** Case analysis on an entry of the table: one goal per key. *)
Ltac table_cases H :=
  apply transitionMap_lookup_Some in H;
  unfold transitionLiteral in H;
  repeat (apply elem_of_cons in H as [H|H]);
  [ injection H as -> -> .. | by apply elem_of_nil in H ].

Lemma transitionMap_targets_NoDup (S : OrderStatus) (rules : list transition) :
  transitionMap !! S = Some rules → NoDup (To <$> rules).
Proof. intros H. table_cases H; compute_done. Qed.

Lemma transitionMap_roles (S : OrderStatus) (rules : list transition) (t : transition) :
  transitionMap !! S = Some rules → t ∈ rules →
  AllowedRoles t ≠ [] ∧
  AllowedRoles t ⊆ [RoleCustomer; RoleRestaurant; RoleDriver].
Proof.
  intros H Ht. table_cases H;
    repeat (apply elem_of_cons in Ht as [->|Ht]);
    try (by apply elem_of_nil in Ht);
    (split; [done | compute_done]).
Qed.

(** ** The loops of the validator *)

Lemma roleLoop_elem_of (allowedRoles : list Role) (role : Role) :
  roleLoop allowedRoles role = true ↔ role ∈ allowedRoles.
Proof.
  induction allowedRoles as [|allowedRole rest IH]; simpl.
  - split; [done | by intros ?%elem_of_nil].
  - rewrite elem_of_cons. case_decide as Heq.
    + split; [by left | done].
    + rewrite IH. split; [by right | by intros [->|?]].
Qed.

Lemma roleLoop_not_elem_of (allowedRoles : list Role) (role : Role) :
  roleLoop allowedRoles role = false ↔ role ∉ allowedRoles.
Proof.
  rewrite <- roleLoop_elem_of. by destruct (roleLoop allowedRoles role).
Qed.

Lemma validTargets_fmap (ts : list transition) : validTargets ts = To <$> ts.
Proof. induction ts as [|t rest IH]; simpl; by rewrite ?IH. Qed.

Lemma targetLoop_None (ts : list transition) (cur new : OrderStatus) (role : Role) :
  targetLoop ts cur new role = None ↔ ∀ t, t ∈ ts → To t ≠ new.
Proof.
  induction ts as [|t rest IH]; simpl.
  - split; [by intros _ t ?%elem_of_nil | done].
  - case_decide as Heq.
    + split.
      * by destruct (roleLoop _ _).
      * intros H. destruct (H t); [by left | done].
    + rewrite IH. split.
      * intros H t' [->|?]%elem_of_cons; auto.
      * intros H t' ?. apply H. by right.
Qed.

Lemma targetLoop_found (ts : list transition) (cur new : OrderStatus)
    (role : Role) (t : transition) :
  NoDup (To <$> ts) → t ∈ ts → To t = new →
  targetLoop ts cur new role
  = Some (if roleLoop (AllowedRoles t) role then None
          else Some (ErrUnauthorized role cur new)).
Proof.
  induction ts as [|t' rest IH]; simpl.
  - by intros _ ?%elem_of_nil.
  - intros [Hnotin Hnd]%NoDup_cons [->|Hin]%elem_of_cons Hto.
    + rewrite decide_True by done. by destruct (roleLoop _ _).
    + rewrite decide_False; [by apply IH|].
      intros Heq. apply Hnotin. rewrite Heq, <- Hto.
      by apply list_elem_of_fmap_2.
Qed.


Lemma targetLoop_Some (ts : list transition) (cur new : OrderStatus)
    (role : Role) (r : option TransitionError) :
  targetLoop ts cur new role = Some r →
  ∃ t, t ∈ ts ∧ To t = new
       ∧ r = if roleLoop (AllowedRoles t) role then None
             else Some (ErrUnauthorized role cur new).
Proof.
  induction ts as [|t rest IH]; simpl; [done|].
  case_decide as Heq.
  - intros Hr. exists t. split_and!; [by left | done |].
    destruct (roleLoop (AllowedRoles t) role); congruence.
  - intros (t' & ? & ? & ?)%IH. exists t'. split_and!; [by right | done..].
Qed.

(** ** The validator, case by case *)

Lemma ValidateTransition_terminal (cur new : OrderStatus) (role : Role) :
  transitionMap !! cur = None →
  ValidateTransition cur new role = Some (ErrTerminal cur).
Proof. unfold ValidateTransition. by intros ->. Qed.

Lemma ValidateTransition_invalid (cur new : OrderStatus) (role : Role)
    (rules : list transition) :
  transitionMap !! cur = Some rules →
  (∀ t, t ∈ rules → To t ≠ new) →
  ValidateTransition cur new role = Some (ErrInvalid cur new (To <$> rules)).
Proof.
  unfold ValidateTransition. intros -> Hnone.
  apply targetLoop_None with (cur := cur) (role := role) in Hnone as ->.
  by rewrite validTargets_fmap.
Qed.

Lemma ValidateTransition_rule (cur new : OrderStatus) (role : Role)
    (rules : list transition) (t : transition) :
  transitionMap !! cur = Some rules → t ∈ rules → To t = new →
  ValidateTransition cur new role
  = if roleLoop (AllowedRoles t) role then None
    else Some (ErrUnauthorized role cur new).
Proof.
  unfold ValidateTransition. intros Hcur Ht Hto. rewrite Hcur.
  by rewrite (targetLoop_found rules cur new role t)
    by eauto using transitionMap_targets_NoDup.
Qed.

Lemma ValidateTransition_accept (cur new : OrderStatus) (role : Role) :
  ValidateTransition cur new role = None →
  ∃ rules t, transitionMap !! cur = Some rules ∧ t ∈ rules ∧ To t = new
             ∧ role ∈ AllowedRoles t.
Proof.
  unfold ValidateTransition.
  destruct (transitionMap !! cur) as [rules|]; [|done].
  destruct (targetLoop rules cur new role) as [r|] eqn:Hloop; [|done].
  intros ->. apply targetLoop_Some in Hloop as (t & ? & ? & Hr).
  destruct (roleLoop (AllowedRoles t) role) eqn:Hrole; [|done].
  apply roleLoop_elem_of in Hrole. eauto 10.
Qed.

(** Every rejection is one of the three, with what the table says of it. *)
Lemma ValidateTransition_reject (cur new : OrderStatus) (role : Role)
    (e : TransitionError) :
  ValidateTransition cur new role = Some e →
  (transitionMap !! cur = None ∧ e = ErrTerminal cur)
  ∨ (∃ rules, transitionMap !! cur = Some rules
        ∧ (∀ t, t ∈ rules → To t ≠ new)
        ∧ e = ErrInvalid cur new (To <$> rules))
  ∨ (∃ rules t, transitionMap !! cur = Some rules ∧ t ∈ rules ∧ To t = new
        ∧ (role ∉ AllowedRoles t) ∧ e = ErrUnauthorized role cur new).
Proof.
  unfold ValidateTransition.
  destruct (transitionMap !! cur) as [rules|] eqn:Hcur.
  - destruct (targetLoop rules cur new role) as [r|] eqn:Hloop.
    + intros ->. apply targetLoop_Some in Hloop as (t & ? & ? & Hr).
      destruct (roleLoop (AllowedRoles t) role) eqn:Hrole; [done|].
      apply roleLoop_not_elem_of in Hrole. injection Hr as ->.
      right; right. eauto 10.
    + intros [= <-]. right; left. exists rules. split_and!; [done | | ].
      * by apply (targetLoop_None rules cur new role).
      * by rewrite validTargets_fmap.
  - intros [= <-]. by left.
Qed.

(** The validator has three outcomes besides acceptance, and [Error] tells
    them apart by the first character of the message. *)
Lemma Error_kind (e : TransitionError) :
  match e with
  | ErrTerminal _ => ∃ s, Error e = String "n"%char s
  | ErrUnauthorized _ _ _ => ∃ s, Error e = String "r"%char s
  | ErrInvalid _ _ _ => ∃ s, Error e = String "i"%char s
  end.
Proof. destruct e; simpl; eauto. Qed.

(** The four scenarios of the specification. *)
Example scenario_A :
  ValidateTransition StatusPlaced StatusConfirmed RoleCustomer
  = Some (ErrUnauthorized RoleCustomer StatusPlaced StatusConfirmed).
Proof. vm_compute. reflexivity. Qed.

Example scenario_B :
  ValidateTransition StatusPlaced StatusDelivered RoleRestaurant
  = Some (ErrInvalid StatusPlaced StatusDelivered
            [StatusConfirmed; StatusCancelled])
  ∧ Error <$> ValidateTransition StatusPlaced StatusDelivered RoleRestaurant
    = Some "invalid transition from 'PLACED' to 'DELIVERED'; valid transitions: [CONFIRMED CANCELLED]".
Proof. split; vm_compute; reflexivity. Qed.

Example scenario_C (newStatus : OrderStatus) (role : Role) :
  ValidateTransition StatusDelivered newStatus role
  = Some (ErrTerminal StatusDelivered).
Proof. by apply ValidateTransition_terminal. Qed.

Example scenario_D :
  ValidateTransition StatusConfirmed StatusCancelled RoleCustomer = None.
Proof. vm_compute. reflexivity. Qed.

(** C1. For every current status, requested status and role: a current
    status with no entry in the table is rejected as terminal; with an entry
    none of whose rules targets the requested status, the transition is
    rejected as invalid, the rejection listing every target of the entry, the
    same for every role; and with a rule that targets the requested status,
    the transition is accepted exactly when the role is one of the rule's
    allowed roles, and rejected as unauthorized otherwise. *)
Theorem ValidateTransition_decides
    (currentStatus newStatus : OrderStatus) (role : Role) :
  (transitionMap !! currentStatus = None →
     ValidateTransition currentStatus newStatus role
     = Some (ErrTerminal currentStatus))
  ∧ (∀ rules, transitionMap !! currentStatus = Some rules →
       (∀ t, t ∈ rules → To t ≠ newStatus) →
       ValidateTransition currentStatus newStatus role
       = Some (ErrInvalid currentStatus newStatus (To <$> rules)))
  ∧ (∀ rules t, transitionMap !! currentStatus = Some rules →
       t ∈ rules → To t = newStatus →
       (ValidateTransition currentStatus newStatus role = None
        ↔ role ∈ AllowedRoles t)
       ∧ (role ∉ AllowedRoles t →
          ValidateTransition currentStatus newStatus role
          = Some (ErrUnauthorized role currentStatus newStatus))).
Proof.
  split_and!.
  - apply ValidateTransition_terminal.
  - apply ValidateTransition_invalid.
  - intros rules t Hcur Ht Hto.
    rewrite (ValidateTransition_rule _ _ _ _ _ Hcur Ht Hto).
    destruct (roleLoop (AllowedRoles t) role) eqn:Hrole.
    + apply roleLoop_elem_of in Hrole. by split.
    + apply roleLoop_not_elem_of in Hrole. by split.
Qed.

Lemma ValidateTransition_decides_witness :
  ValidateTransition StatusDelivered StatusPlaced RoleDriver
  = Some (ErrTerminal StatusDelivered)
  ∧ ValidateTransition StatusPlaced StatusDelivered RoleRestaurant
    = Some (ErrInvalid StatusPlaced StatusDelivered
              [StatusConfirmed; StatusCancelled])
  ∧ (ValidateTransition StatusConfirmed StatusCancelled RoleCustomer = None
     ↔ RoleCustomer ∈ [RoleCustomer; RoleRestaurant])
  ∧ ValidateTransition StatusPlaced StatusConfirmed RoleCustomer
    = Some (ErrUnauthorized RoleCustomer StatusPlaced StatusConfirmed).
Proof.
  split_and!.
  - apply (ValidateTransition_decides StatusDelivered StatusPlaced RoleDriver).
    vm_compute. reflexivity.
  - apply (proj1 (proj2 (ValidateTransition_decides
                           StatusPlaced StatusDelivered RoleRestaurant))
             [mkTransition StatusConfirmed [RoleRestaurant];
              mkTransition StatusCancelled [RoleCustomer]]).
    + vm_compute. reflexivity.
    + intros t Ht.
      repeat (apply elem_of_cons in Ht as [->|Ht]);
        [compute_done.. | by apply elem_of_nil in Ht].
  - apply (proj2 (proj2 (ValidateTransition_decides
                           StatusConfirmed StatusCancelled RoleCustomer))
             [mkTransition StatusPreparing [RoleRestaurant];
              mkTransition StatusCancelled [RoleCustomer; RoleRestaurant]]
             (mkTransition StatusCancelled [RoleCustomer; RoleRestaurant])).
    + vm_compute. reflexivity.
    + compute_done.
    + reflexivity.
  - apply (proj2 (proj2 (ValidateTransition_decides
                           StatusPlaced StatusConfirmed RoleCustomer))
             [mkTransition StatusConfirmed [RoleRestaurant];
              mkTransition StatusCancelled [RoleCustomer]]
             (mkTransition StatusConfirmed [RoleRestaurant])).
    + vm_compute. reflexivity.
    + compute_done.
    + reflexivity.
    + compute_done.
Defined.

(** ** The content of the table *)

(** C2. The rules of the table are the eight rules of the specification and
    no other; there is no entry for DELIVERED or CANCELLED; every other
    status of the enumeration has an entry with at least one rule; and no
    rule has an empty set of allowed roles. *)
Theorem transitionMap_rules :
  (∀ S T roles,
     (∃ rules, transitionMap !! S = Some rules ∧ mkTransition T roles ∈ rules)
     ↔ (S, T, roles) ∈ spec_rules)
  ∧ tableRules ≡ₚ spec_rules
  ∧ transitionMap !! StatusDelivered = None
  ∧ transitionMap !! StatusCancelled = None
  ∧ (∀ S, S ∈ nonTerminal →
       ∃ rules, transitionMap !! S = Some rules ∧ rules ≠ [])
  ∧ (∀ S rules t, transitionMap !! S = Some rules → t ∈ rules →
       AllowedRoles t ≠ []).
Proof.
  split_and!.
  - intros S T roles. split.
    + intros (rules & H & Ht). table_cases H;
        repeat (apply elem_of_cons in Ht as [Ht|Ht]);
        try (by apply elem_of_nil in Ht);
        injection Ht as -> ->; compute_done.
    + unfold spec_rules. intros H.
      repeat (apply elem_of_cons in H as [H|H]);
        [ injection H as -> -> -> .. | by apply elem_of_nil in H ];
        (eexists; split; [ by vm_compute | compute_done ]).
  - compute_done.
  - by vm_compute.
  - by vm_compute.
  - unfold nonTerminal. intros S H.
    repeat (apply elem_of_cons in H as [->|H]);
      [ .. | by apply elem_of_nil in H ];
      (eexists; split; [ by vm_compute | done ]).
  - intros S rules t H Ht. by apply (transitionMap_roles S rules t).
Qed.

(** ** The allowed-transition query *)

Lemma allowedLoop_filter (ts : list transition) (role : Role)
    (result : list OrderStatus) :
  allowedLoop ts role result
  = result ++ (To <$> filter (λ t, role = "" ∨ role ∈ AllowedRoles t) ts).
Proof.
  revert result. induction ts as [|t rest IH]; intros result; simpl.
  - by rewrite app_nil_r.
  - destruct (decide (role = "")) as [Hempty|Hempty].
    + rewrite IH, filter_cons_True by (by left).
      by rewrite <- app_assoc.
    + destruct (roleLoop (AllowedRoles t) role) eqn:Hrole.
      * apply roleLoop_elem_of in Hrole.
        rewrite IH, filter_cons_True by (by right).
        by rewrite <- app_assoc.
      * apply roleLoop_not_elem_of in Hrole.
        rewrite IH, filter_cons_False by (by intros [?|?]).
        done.
Qed.

(** C7. For every status and role filter, the query returns the targets of
    the rules of the status's entry, in the entry's order, keeping a rule
    when the filter is empty or is one of the rule's allowed roles; a status
    with no entry gives the empty list, as does a filter that no rule
    allows. *)
Theorem GetAllowedTransitions_filter (S : OrderStatus) (r : Role) :
  statemachine.GetAllowedTransitions S r
  = match transitionMap !! S with
    | None => []
    | Some rules => To <$> filter (λ t, r = "" ∨ r ∈ AllowedRoles t) rules
    end
  ∧ (∀ T, T ∈ statemachine.GetAllowedTransitions S r
       ↔ ∃ rules t, transitionMap !! S = Some rules ∧ t ∈ rules ∧ To t = T
                    ∧ (r = "" ∨ r ∈ AllowedRoles t)).
Proof.
  assert (statemachine.GetAllowedTransitions S r
          = match transitionMap !! S with
            | None => []
            | Some rules => To <$> filter (λ t, r = "" ∨ r ∈ AllowedRoles t) rules
            end) as Heq.
  { unfold statemachine.GetAllowedTransitions.
    destruct (transitionMap !! S) as [rules|]; [|done].
    by rewrite allowedLoop_filter. }
  split; [done|]. intros T. rewrite Heq.
  destruct (transitionMap !! S) as [rules|].
  - rewrite list_elem_of_fmap. setoid_rewrite list_elem_of_filter. split.
    + intros (t & -> & ? & ?). by exists rules, t.
    + intros (rules' & t & [= <-] & ? & <- & ?). by exists t.
  - split; [by intros ?%elem_of_nil | by intros (? & ? & ? & _)].
Qed.

(** ** Statuses and roles outside the enumerations *)

(** C9. A current status that is not one of the six keys of the table, be it
    DELIVERED, CANCELLED or any other string, is rejected as terminal
    whatever the requested status and the role: the validator does not tell a
    string that is no status from a terminal status. *)
Theorem ValidateTransition_unknown_status_terminal
    (currentStatus : OrderStatus) :
  currentStatus ∉ nonTerminal →
  transitionMap !! currentStatus = None
  ∧ ∀ newStatus role,
      ValidateTransition currentStatus newStatus role
      = Some (ErrTerminal currentStatus).
Proof.
  intros Hkey.
  assert (transitionMap !! currentStatus = None) as Hnone
    by by apply transitionMap_lookup_None.
  split; [done|]. intros newStatus role.
  by apply ValidateTransition_terminal.
Qed.

Lemma ValidateTransition_unknown_status_terminal_witness :
  (transitionMap !! "REFUNDED" = None
   ∧ ∀ newStatus role,
       ValidateTransition "REFUNDED" newStatus role
       = Some (ErrTerminal "REFUNDED"))
  ∧ (transitionMap !! StatusDelivered = None
     ∧ ∀ newStatus role,
         ValidateTransition StatusDelivered newStatus role
         = Some (ErrTerminal StatusDelivered)).
Proof.
  split.
  - apply (ValidateTransition_unknown_status_terminal "REFUNDED").
    compute_done.
  - apply (ValidateTransition_unknown_status_terminal StatusDelivered).
    compute_done.
Defined.

(** C10. A role that is none of customer, restaurant and driver is never
    accepted, whatever the two statuses, since the allowed roles of every
    rule of the table are among those three; the middleware lets any
    non-empty role through, and the update handler then never answers 200. *)
Theorem ValidateTransition_unknown_role_never_accepted (r : Role) :
  r ∉ [RoleCustomer; RoleRestaurant; RoleDriver] →
  (∀ S rules t, transitionMap !! S = Some rules → t ∈ rules →
     AllowedRoles t ⊆ [RoleCustomer; RoleRestaurant; RoleDriver])
  ∧ (∀ S T, ValidateTransition S T r ≠ None)
  ∧ (∀ id userID req now w,
       handlers.code
         (handlers.AuthMiddleware
            (λ role userID, handlers.UpdateOrderStatus id role userID req now)
            userID r w).1
       ≠ http.StatusOK).
Proof.
  intros Hr.
  assert (∀ S T, ValidateTransition S T r ≠ None) as Hnever.
  { intros S T (rules & t & Hcur & Ht & _ & Hin)%ValidateTransition_accept.
    apply Hr. by apply (transitionMap_roles S rules t Hcur Ht). }
  split_and!; [ | done | ].
  - intros S rules t Hcur Ht. by apply (transitionMap_roles S rules t).
  - intros id userID req now w.
    unfold handlers.AuthMiddleware. case_decide; [done|].
    unfold handlers.UpdateOrderStatus, mbind, DB_bind.
    destruct (GetOrder id w) as [[order|err] w1]; [|done].
    unfold handlers.UpdateOrderStatus_loaded.
    destruct req as [req|]; [|done].
    destruct (ValidateTransition _ _ r) as [e|] eqn:He;
      [| by apply Hnever in He].
    repeat match goal with
      | |- context [match ?x with Some _ => _ | None => _ end] => destruct x
      end; done.
Qed.

Lemma ValidateTransition_unknown_role_never_accepted_witness :
  ValidateTransition StatusPlaced StatusConfirmed "admin" ≠ None.
Proof.
  apply (ValidateTransition_unknown_role_never_accepted "admin").
  compute_done.
Defined.

(** ** The store *)

Lemma GetOrder_inl (id : string) (w : World) (order : Order.t) :
  (GetOrder id w).1 = inl order →
  orders w !! id = Some order
  ∧ GetOrder id w
    = (inl order,
       mkWorld (users w) (orders w) (menuItems w) (tail (faults w))
         (journal w ++ [FindOrder id])).
Proof.
  unfold GetOrder, call, read, mbind, DB_bind, mret, DB_ret.
  destruct (faults w) as [|[msg|] rest]; simpl; try done;
    destruct (orders w !! id); simpl; intros; by simplify_eq.
Qed.

Lemma SaveOrder_run (order : Order.t) (w : World) :
  SaveOrder order w
  = match head (faults w) with
    | Some (Some err) =>
        (Some err,
         mkWorld (users w) (orders w) (menuItems w) (tail (faults w))
           (journal w ++ [ReplaceOrder order]))
    | _ =>
        (None,
         mkWorld (users w) (<[Order.ID order := order]> (orders w))
           (menuItems w) (tail (faults w))
           (journal w ++ [ReplaceOrder order]))
    end.
Proof.
  unfold SaveOrder, call, replaceOrder, mbind, DB_bind, mret, DB_ret.
  by destruct (faults w) as [|[msg|] rest].
Qed.

(** ** The status-update handler *)

(** What the handler does once it has read [order], by the validator's
    decision: on a rejection, an error response and the one read call; on an
    acceptance, the read call and one save call, of the updated order. *)
Lemma UpdateOrderStatus_run (id role userID : string)
    (req : UpdateStatusRequest.t) (now : Time) (w : World) (order : Order.t) :
  (GetOrder id w).1 = inl order →
  match ValidateTransition (Order.Status order)
          (UpdateStatusRequest.Status req) role with
  | Some err =>
      ∃ status, (status = http.StatusForbidden ∨ status = http.StatusBadRequest)
      ∧ handlers.UpdateOrderStatus id role userID (Some req) now w
        = (handlers.respondError status (Error err),
           mkWorld (users w) (orders w) (menuItems w) (tail (faults w))
             (journal w ++ [FindOrder id]))
  | None =>
      ∃ order', accepted order role userID req now order'
      ∧ handlers.UpdateOrderStatus id role userID (Some req) now w
        = match faults w !! 1%nat with
          | Some (Some _) =>
              (handlers.respondError http.StatusInternalServerError
                 "Failed to update order",
               mkWorld (users w) (orders w) (menuItems w)
                 (tail (tail (faults w)))
                 (journal w ++ [FindOrder id; ReplaceOrder order']))
          | _ =>
              (handlers.respondJSON http.StatusOK (handlers.OrderBody order'),
               mkWorld (users w) (<[Order.ID order := order']> (orders w))
                 (menuItems w) (tail (tail (faults w)))
                 (journal w ++ [FindOrder id; ReplaceOrder order']))
          end
  end.
Proof.
  intros [Hlookup Hget]%GetOrder_inl.
  unfold handlers.UpdateOrderStatus, mbind, DB_bind. rewrite Hget.
  unfold handlers.UpdateOrderStatus_loaded, mbind, DB_bind.
  destruct (ValidateTransition _ _ role) as [err|] eqn:Hvalid.
  - repeat match goal with
      | |- context [match ?x with Some _ => _ | None => _ end] => destruct x
      end; eexists; (split; [|reflexivity]); auto.
  - cbv zeta. set (order' := Order.setUpdatedAt now _).
    exists order'. split; [|rewrite SaveOrder_run].
    + unfold accepted, order'. simpl. split_and!; try reflexivity;
        by case_decide.
    + assert (Order.ID order' = Order.ID order) as ->
        by (unfold order'; simpl; by case_decide).
      clearbody order'. simpl.
      assert (head (tail (faults w)) = faults w !! 1%nat) as ->
        by by destruct (faults w) as [|? [|? ?]].
      rewrite <- !app_assoc. simpl.
      by destruct (faults w !! 1%nat) as [[?|]|].
Qed.

(** C3. A call of the update handler that has read [order]: when the
    validator rejects, the response carries the rejection, the three
    collections are as before, so the stored order is unchanged in every
    field, and the only driver call is the read; when the validator accepts,
    the driver calls are the read and exactly one save, of the order with one
    entry appended to its history (from the prior status to the requested
    one, by the actor and role) and the status set to the requested one, and
    that save replaces the stored order unless the driver call fails. *)
Theorem UpdateOrderStatus_writes (id role userID : string)
    (req : UpdateStatusRequest.t) (now : Time) (w : World) (order : Order.t) :
  (GetOrder id w).1 = inl order →
  let '(response, w') :=
    handlers.UpdateOrderStatus id role userID (Some req) now w in
  match ValidateTransition (Order.Status order)
          (UpdateStatusRequest.Status req) role with
  | Some err =>
      handlers.body response = handlers.ErrorBody (Error err)
      ∧ users w' = users w ∧ orders w' = orders w
      ∧ menuItems w' = menuItems w
      ∧ orders w' !! id = Some order
      ∧ journal w' = journal w ++ [FindOrder id]
  | None =>
      ∃ order',
        journal w' = journal w ++ [FindOrder id; ReplaceOrder order']
        ∧ Order.StatusHistory order'
          = Order.StatusHistory order
              ++ [StatusChange.mk (Order.Status order)
                    (UpdateStatusRequest.Status req) userID role now]
        ∧ Order.Status order' = UpdateStatusRequest.Status req
        ∧ users w' = users w ∧ menuItems w' = menuItems w
        ∧ match faults w !! 1%nat with
          | Some (Some _) =>
              orders w' = orders w
              ∧ handlers.code response = http.StatusInternalServerError
          | _ =>
              orders w' = <[Order.ID order := order']> (orders w)
              ∧ response
                = handlers.respondJSON http.StatusOK (handlers.OrderBody order')
          end
  end.
Proof.
  intros Hget.
  pose proof (UpdateOrderStatus_run id role userID req now w order Hget) as Hrun.
  apply GetOrder_inl in Hget as [Hlookup _].
  destruct (ValidateTransition _ _ role) as [err|].
  - destruct Hrun as (status & _ & ->). by simpl.
  - destruct Hrun as (order' & Hacc & ->).
    destruct Hacc as (_ & _ & _ & _ & _ & _ & Hstatus & Hhistory & _).
    destruct (faults w !! 1%nat) as [[?|]|]; exists order'; by simpl.
Qed.

(** The three further validations of the handler: some enumerated role is
    accepted exactly when a rule targets the requested status. *)
Lemma some_role_accepted (cur new : OrderStatus) (rules : list transition)
    (t : transition) :
  transitionMap !! cur = Some rules → t ∈ rules → To t = new →
  ValidateTransition cur new RoleCustomer = None
  ∨ ValidateTransition cur new RoleRestaurant = None
  ∨ ValidateTransition cur new RoleDriver = None.
Proof.
  intros Hcur Ht Hto.
  rewrite !(ValidateTransition_rule cur new _ rules t Hcur Ht Hto).
  destruct (transitionMap_roles cur rules t Hcur Ht) as [Hne Hsub].
  destruct (AllowedRoles t) as [|r roles] eqn:Hroles; [done|].
  assert (r ∈ [RoleCustomer; RoleRestaurant; RoleDriver]) as Hr
    by (apply Hsub; by left).
  repeat (apply elem_of_cons in Hr as [->|Hr]);
    [ left | right; left | right; right | by apply elem_of_nil in Hr ];
    (replace (roleLoop _ _) with true; [done|]);
    symmetry; apply roleLoop_elem_of; by left.
Qed.

(** C5. Whenever the validator rejects, the status the handler answers after
    validating again with each of the three roles is the status of the
    specification's single pass: 403 exactly when the rejection is
    unauthorized, 400 exactly when it is terminal or an illegal transition. *)
Theorem UpdateOrderStatus_two_pass (id role userID : string)
    (req : UpdateStatusRequest.t) (now : Time) (w : World) (order : Order.t)
    (e : TransitionError) :
  (GetOrder id w).1 = inl order →
  ValidateTransition (Order.Status order)
    (UpdateStatusRequest.Status req) role = Some e →
  let response :=
    (handlers.UpdateOrderStatus id role userID (Some req) now w).1 in
  response = handlers.respondError (spec_statusCode e) (Error e)
  ∧ (handlers.code response = http.StatusForbidden
     ↔ ∃ r cur new, e = ErrUnauthorized r cur new)
  ∧ (handlers.code response = http.StatusBadRequest
     ↔ (∃ cur, e = ErrTerminal cur) ∨ (∃ cur new l, e = ErrInvalid cur new l)).
Proof.
  intros [_ Hget]%GetOrder_inl Hvalid. cbv zeta.
  assert ((handlers.UpdateOrderStatus id role userID (Some req) now w).1
          = handlers.respondError (spec_statusCode e) (Error e)) as ->.
  { unfold handlers.UpdateOrderStatus, mbind, DB_bind. rewrite Hget.
    unfold handlers.UpdateOrderStatus_loaded. rewrite Hvalid.
    destruct (ValidateTransition_reject _ _ _ _ Hvalid)
      as [[Hcur ->] | [(rules & Hcur & Hnone & ->)
                      | (rules & t & Hcur & Ht & Hto & _ & ->)]].
    - by rewrite !(ValidateTransition_terminal _ _ _ Hcur).
    - by rewrite !(ValidateTransition_invalid _ _ _ rules Hcur Hnone).
    - destruct (some_role_accepted _ _ rules t Hcur Ht Hto) as [->|[->| ->]];
        repeat match goal with
          | |- context [ValidateTransition ?a ?b ?c] =>
              destruct (ValidateTransition a b c)
          end; done. }
  destruct e as [c | r c n | c n l]; simpl; (split_and!; [done | split..]).
  - by intros [=].
  - by intros (? & ? & ? & [=]).
  - intros _. left. by exists c.
  - done.
  - intros _. by exists r, c, n.
  - done.
  - by intros [=].
  - by intros [(? & [=]) | (? & ? & ? & [=])].
  - by intros [=].
  - by intros (? & ? & ? & [=]).
  - intros _. right. by exists c, n, l.
  - done.
Qed.

(** C8. On an accepted transition the order that is saved, and returned with
    a 200, has the actor as its driver when the requested status is
    PICKED_UP and the order had no driver; it keeps its driver when it had
    one, and whenever the requested status is any other. *)
Theorem UpdateOrderStatus_driver (id role userID : string)
    (req : UpdateStatusRequest.t) (now : Time) (w : World) (order : Order.t) :
  (GetOrder id w).1 = inl order →
  ValidateTransition (Order.Status order)
    (UpdateStatusRequest.Status req) role = None →
  let '(response, w') :=
    handlers.UpdateOrderStatus id role userID (Some req) now w in
  ∃ order',
    journal w' = journal w ++ [FindOrder id; ReplaceOrder order']
    ∧ (handlers.code response = http.StatusOK →
       handlers.body response = handlers.OrderBody order'
       ∧ orders w' !! Order.ID order = Some order')
    ∧ (UpdateStatusRequest.Status req = StatusPickedUp →
       Order.DriverID order = "" → Order.DriverID order' = userID)
    ∧ (Order.DriverID order ≠ "" →
       Order.DriverID order' = Order.DriverID order)
    ∧ (UpdateStatusRequest.Status req ≠ StatusPickedUp →
       Order.DriverID order' = Order.DriverID order).
Proof.
  intros Hget Hvalid.
  pose proof (UpdateOrderStatus_run id role userID req now w order Hget) as Hrun.
  rewrite Hvalid in Hrun. destruct Hrun as (order' & Hacc & ->).
  destruct Hacc as (_ & _ & _ & Hdriver & _).
  assert ((UpdateStatusRequest.Status req = StatusPickedUp →
           Order.DriverID order = "" → Order.DriverID order' = userID)
          ∧ (Order.DriverID order ≠ "" →
             Order.DriverID order' = Order.DriverID order)
          ∧ (UpdateStatusRequest.Status req ≠ StatusPickedUp →
             Order.DriverID order' = Order.DriverID order)) as Hd.
  { rewrite Hdriver. case_decide as Hc; split_and!; intros; try done;
      try (by destruct Hc); exfalso; apply Hc; by split. }
  destruct (faults w !! 1%nat) as [[?|]|]; exists order'; simpl;
    (split_and!; [done | | apply Hd..]); intros; try done;
    (split; [done | by rewrite lookup_insert_eq]).
Qed.

(** ** Order creation *)

Lemma itemLoop_inl (items : list OrderItemRequest.t) (restaurantID : string)
    (orderItems : list OrderItem.t) (total : float64) (w w' : World)
    (response : handlers.Response) :
  handlers.itemLoop items restaurantID orderItems total w = (inl response, w') →
  handlers.code response = http.StatusBadRequest.
Proof.
  revert orderItems total w.
  induction items as [|ri rest IH]; intros orderItems total w; simpl; [done|].
  case_decide; [by intros [= <- _]|].
  unfold mbind, DB_bind.
  destruct (GetMenuItem _ w) as [[menuItem|err] w1]; [|by intros [= <- _]].
  case_decide; [by intros [= <- _]|].
  destruct (MenuItem.Available menuItem); simpl; [apply IH | by intros [= <- _]].
Qed.

(** The order that [CreateOrder] answers with a 201. *)
Lemma CreateOrder_created (role userID : string)
    (req : option CreateOrderFromMenuRequest.t) (newID : string) (now : Time)
    (w : World) (order : Order.t) :
  (handlers.CreateOrder role userID req newID now w).1
  = handlers.respondJSON http.StatusCreated (handlers.OrderBody order) →
  ∃ restaurantID orderItems total deliveryAddress,
    order = Order.mk newID userID restaurantID "" orderItems total StatusPlaced
              [StatusChange.mk "" StatusPlaced userID RoleCustomer now]
              deliveryAddress now now.
Proof.
  unfold handlers.CreateOrder.
  case_decide; [done|]. destruct req as [req|]; [|done].
  repeat (case_decide; [done|]).
  unfold mbind, DB_bind.
  destruct (GetUser _ w) as [[restaurant|err] w1]; [|done].
  case_decide; [done|].
  destruct (handlers.itemLoop _ _ _ _ w1) as [[response|[orderItems total]] w2]
    eqn:Hloop.
  - apply itemLoop_inl in Hloop. simpl. intros ->. done.
  - destruct (SaveOrder _ w2) as [[err|] w3]; [done|].
    simpl. intros [= <-]. eauto.
Qed.

(** ** The status and the history *)

(** The order of a 200 of the update handler, from the order it read. *)
Lemma UpdateOrderStatus_ok (id role userID : string)
    (req : option UpdateStatusRequest.t) (now : Time) (w : World)
    (order order' : Order.t) :
  (GetOrder id w).1 = inl order →
  (handlers.UpdateOrderStatus id role userID req now w).1
  = handlers.respondJSON http.StatusOK (handlers.OrderBody order') →
  ∃ r, req = Some r
       ∧ ValidateTransition (Order.Status order)
           (UpdateStatusRequest.Status r) role = None
       ∧ accepted order role userID r now order'.
Proof.
  intros Hget. destruct req as [r|].
  - pose proof (UpdateOrderStatus_run id role userID r now w order Hget) as Hrun.
    destruct (ValidateTransition _ _ role) as [err|] eqn:Hvalid.
    + destruct Hrun as (status & _ & ->). by intros [=].
    + destruct Hrun as (o & Hacc & ->).
      destruct (faults w !! 1%nat) as [[?|]|]; simpl; [by intros [=]|..];
        intros [= <-]; by exists r.
  - apply GetOrder_inl in Hget as [_ Hget].
    unfold handlers.UpdateOrderStatus, mbind, DB_bind. by rewrite Hget.
Qed.

(** C4. The status of every order the handlers produce is the to-status of
    the last entry of its history: order creation gives the status PLACED
    and a history of the one creation entry, from the empty status to
    PLACED; and an accepted transition appends one entry, from the prior
    status to the new one, and sets the status to that same new one. *)
Theorem status_is_last_of_history :
  (∀ order, Produced order →
     StatusChange.ToStatus <$> last (Order.StatusHistory order)
     = Some (Order.Status order))
  ∧ (∀ role userID req newID now w order,
       (handlers.CreateOrder role userID req newID now w).1
       = handlers.respondJSON http.StatusCreated (handlers.OrderBody order) →
       Order.Status order = StatusPlaced
       ∧ Order.StatusHistory order
         = [StatusChange.mk "" StatusPlaced userID RoleCustomer now])
  ∧ (∀ id role userID req now w order order',
       (GetOrder id w).1 = inl order →
       (handlers.UpdateOrderStatus id role userID req now w).1
       = handlers.respondJSON http.StatusOK (handlers.OrderBody order') →
       ∃ e, Order.StatusHistory order' = Order.StatusHistory order ++ [e]
            ∧ StatusChange.FromStatus e = Order.Status order
            ∧ StatusChange.ToStatus e = Order.Status order').
Proof.
  assert (∀ role userID req newID now w order,
       (handlers.CreateOrder role userID req newID now w).1
       = handlers.respondJSON http.StatusCreated (handlers.OrderBody order) →
       Order.Status order = StatusPlaced
       ∧ Order.StatusHistory order
         = [StatusChange.mk "" StatusPlaced userID RoleCustomer now]) as Hcreate.
  { intros role userID req newID now w order H.
    by apply CreateOrder_created in H as (? & ? & ? & ? & ->). }
  assert (∀ id role userID req now w order order',
       (GetOrder id w).1 = inl order →
       (handlers.UpdateOrderStatus id role userID req now w).1
       = handlers.respondJSON http.StatusOK (handlers.OrderBody order') →
       ∃ e, Order.StatusHistory order' = Order.StatusHistory order ++ [e]
            ∧ StatusChange.FromStatus e = Order.Status order
            ∧ StatusChange.ToStatus e = Order.Status order') as Hupdate.
  { intros id role userID req now w order order' Hget H.
    apply (UpdateOrderStatus_ok _ _ _ _ _ _ _ _ Hget) in H
      as (r & _ & _ & Hacc).
    destruct Hacc as (_ & _ & _ & _ & _ & _ & Hstatus & Hhistory & _).
    eexists. split; [exact Hhistory|]. by rewrite Hstatus. }
  split_and!; [|done..].
  induction 1 as [role userID req newID now w order H
                 |id role userID req now w order order' _ _ Hget H].
  - apply Hcreate in H as [-> ->]. done.
  - apply (Hupdate _ _ _ _ _ _ _ _ Hget) in H as (e & -> & _ & <-).
    by rewrite last_snoc.
Qed.

(** ** A run of the handlers, checked *)

Example sample_placed :
  sample.placed.1
  = handlers.respondJSON http.StatusCreated (handlers.OrderBody sample.order0)
  ∧ orders sample.placed.2 !! "o1" = Some sample.order0.
Proof. split; vm_compute; reflexivity. Qed.

Example sample_confirmed :
  sample.confirmed.1
  = handlers.respondJSON http.StatusOK (handlers.OrderBody sample.order1)
  ∧ orders sample.confirmed.2 !! "o1" = Some sample.order1.
Proof. split; vm_compute; reflexivity. Qed.

Lemma UpdateOrderStatus_writes_witness :
  let '(response, w') :=
    handlers.UpdateOrderStatus "o1" RoleRestaurant "r1"
      (Some (UpdateStatusRequest.mk StatusConfirmed "")) 20 sample.placed.2 in
  match ValidateTransition (Order.Status sample.order0)
          (UpdateStatusRequest.Status (UpdateStatusRequest.mk StatusConfirmed ""))
          RoleRestaurant with
  | Some err =>
      handlers.body response = handlers.ErrorBody (Error err)
      ∧ users w' = users sample.placed.2
      ∧ orders w' = orders sample.placed.2
      ∧ menuItems w' = menuItems sample.placed.2
      ∧ orders w' !! "o1" = Some sample.order0
      ∧ journal w' = journal sample.placed.2 ++ [FindOrder "o1"]
  | None =>
      ∃ order',
        journal w'
        = journal sample.placed.2 ++ [FindOrder "o1"; ReplaceOrder order']
        ∧ Order.StatusHistory order'
          = Order.StatusHistory sample.order0
              ++ [StatusChange.mk (Order.Status sample.order0)
                    StatusConfirmed "r1" RoleRestaurant 20]
        ∧ Order.Status order' = StatusConfirmed
        ∧ users w' = users sample.placed.2
        ∧ menuItems w' = menuItems sample.placed.2
        ∧ match faults sample.placed.2 !! 1%nat with
          | Some (Some _) =>
              orders w' = orders sample.placed.2
              ∧ handlers.code response = http.StatusInternalServerError
          | _ =>
              orders w'
              = <[Order.ID sample.order0 := order']> (orders sample.placed.2)
              ∧ response
                = handlers.respondJSON http.StatusOK (handlers.OrderBody order')
          end
  end.
Proof.
  apply (UpdateOrderStatus_writes "o1" RoleRestaurant "r1"
           (UpdateStatusRequest.mk StatusConfirmed "") 20 sample.placed.2
           sample.order0).
  vm_compute. reflexivity.
Defined.

Lemma UpdateOrderStatus_two_pass_witness :
  (handlers.UpdateOrderStatus "o1" RoleCustomer "c1"
     (Some (UpdateStatusRequest.mk StatusConfirmed "")) 20 sample.placed.2).1
  = handlers.respondError 403
      "role 'customer' is not authorized to transition order from 'PLACED' to 'CONFIRMED'".
Proof.
  apply (UpdateOrderStatus_two_pass "o1" RoleCustomer "c1"
           (UpdateStatusRequest.mk StatusConfirmed "") 20 sample.placed.2
           sample.order0
           (ErrUnauthorized RoleCustomer StatusPlaced StatusConfirmed)).
  - vm_compute. reflexivity.
  - vm_compute. reflexivity.
Defined.

(** The happy path of the specification: every step succeeds, the order ends
    DELIVERED with the driver of the pickup, and its history has seven
    entries, each starting from the status the one before it reached. *)
Example sample_delivered :
  ∃ order,
    sample.delivered.1
    = handlers.respondJSON http.StatusOK (handlers.OrderBody order)
    ∧ orders sample.delivered.2 !! "o1" = Some order
    ∧ Order.Status order = StatusDelivered
    ∧ Order.DriverID order = "d1"
    ∧ StatusChange.FromStatus <$> Order.StatusHistory order
      = [ ""; StatusPlaced; StatusConfirmed; StatusPreparing;
          StatusReadyForPickup; StatusPickedUp; StatusOutForDelivery ]
    ∧ StatusChange.ToStatus <$> Order.StatusHistory order
      = [ StatusPlaced; StatusConfirmed; StatusPreparing; StatusReadyForPickup;
          StatusPickedUp; StatusOutForDelivery; StatusDelivered ].
Proof. eexists. split_and!; vm_compute; reflexivity. Qed.

Lemma UpdateOrderStatus_driver_witness :
  let '(response, w') :=
    handlers.UpdateOrderStatus "o1" RoleDriver "d1"
      (Some (UpdateStatusRequest.mk StatusPickedUp "")) 50 sample.ready.2 in
  ∃ order',
    journal w'
    = journal sample.ready.2 ++ [FindOrder "o1"; ReplaceOrder order']
    ∧ (handlers.code response = http.StatusOK →
       handlers.body response = handlers.OrderBody order'
       ∧ orders w' !! Order.ID sample.order3 = Some order')
    ∧ (UpdateStatusRequest.Status (UpdateStatusRequest.mk StatusPickedUp "")
       = StatusPickedUp →
       Order.DriverID sample.order3 = "" → Order.DriverID order' = "d1")
    ∧ (Order.DriverID sample.order3 ≠ "" →
       Order.DriverID order' = Order.DriverID sample.order3)
    ∧ (UpdateStatusRequest.Status (UpdateStatusRequest.mk StatusPickedUp "")
       ≠ StatusPickedUp →
       Order.DriverID order' = Order.DriverID sample.order3).
Proof.
  apply (UpdateOrderStatus_driver "o1" RoleDriver "d1"
           (UpdateStatusRequest.mk StatusPickedUp "") 50 sample.ready.2
           sample.order3).
  - vm_compute. reflexivity.
  - vm_compute. reflexivity.
Defined.

Lemma status_is_last_of_history_witness :
  StatusChange.ToStatus <$> last (Order.StatusHistory sample.order1)
  = Some StatusConfirmed.
Proof.
  apply (proj1 status_is_last_of_history sample.order1).
  apply (Produced_update "o1" RoleRestaurant "r1"
           (Some (UpdateStatusRequest.mk StatusConfirmed "")) 20
           sample.placed.2 sample.order0).
  - apply (Produced_create RoleCustomer "c1" (Some sample.menuRequest) "o1" 10
             sample.empty).
    vm_compute. reflexivity.
  - vm_compute. reflexivity.
  - vm_compute. reflexivity.
Defined.

(** ** Requests served at once *)

(** A goroutine left alone runs the handler. *)
Lemma run_alone (r : server.Request) (w : World) :
  server.run [0; 0]%nat [server.Serving r] w
  = let '(response, w') :=
      handlers.UpdateOrderStatus (server.id r) (server.role r)
        (server.userID r) (server.req r) (server.now r) w in
    ([server.Responded response], w').
Proof.
  unfold handlers.UpdateOrderStatus. simpl. unfold mbind, DB_bind. simpl.
  destruct (GetOrder (server.id r) w) as [[order|err] w1]; simpl; [|done].
  unfold mbind, DB_bind.
  by destruct (handlers.UpdateOrderStatus_loaded _ _ _ _ _ w1).
Qed.

(** The rest of the handler on an acceptance, when the save does not fail. *)
Lemma UpdateOrderStatus_loaded_accept (order : Order.t) (role userID : string)
    (req : UpdateStatusRequest.t) (now : Time) (w : World) :
  ValidateTransition (Order.Status order)
    (UpdateStatusRequest.Status req) role = None →
  faults w = [] →
  ∃ order', accepted order role userID req now order'
    ∧ handlers.UpdateOrderStatus_loaded order role userID (Some req) now w
      = (handlers.respondJSON http.StatusOK (handlers.OrderBody order'),
         mkWorld (users w) (<[Order.ID order := order']> (orders w))
           (menuItems w) [] (journal w ++ [ReplaceOrder order'])).
Proof.
  intros Hvalid Hfaults.
  unfold handlers.UpdateOrderStatus_loaded, mbind, DB_bind. rewrite Hvalid.
  cbv zeta. set (order' := Order.setUpdatedAt now _).
  assert (Order.ID order' = Order.ID order) as Hid
    by (unfold order'; simpl; by case_decide).
  exists order'. split.
  - unfold accepted, order'. simpl. split_and!; try reflexivity; by case_decide.
  - rewrite SaveOrder_run, Hid. clearbody order'. by rewrite Hfaults.
Qed.

(** Two requests on one order, each accepted from the status the order has:
    when both read before either writes, both are answered 200, and the
    stored order is the second's, with the history the order had and the
    second's entry alone. *)
Lemma race_lost_update (w : World) (order : Order.t) (r1 r2 : server.Request)
    (q1 q2 : UpdateStatusRequest.t) :
  faults w = [] →
  server.id r2 = server.id r1 →
  orders w !! server.id r1 = Some order →
  server.req r1 = Some q1 → server.req r2 = Some q2 →
  ValidateTransition (Order.Status order)
    (UpdateStatusRequest.Status q1) (server.role r1) = None →
  ValidateTransition (Order.Status order)
    (UpdateStatusRequest.Status q2) (server.role r2) = None →
  ∃ o1 o2 w',
    server.run [0; 1; 0; 1]%nat [server.Serving r1; server.Serving r2] w
    = ([server.Responded
          (handlers.respondJSON http.StatusOK (handlers.OrderBody o1));
        server.Responded
          (handlers.respondJSON http.StatusOK (handlers.OrderBody o2))], w')
    ∧ accepted order (server.role r1) (server.userID r1) q1 (server.now r1) o1
    ∧ accepted order (server.role r2) (server.userID r2) q2 (server.now r2) o2
    ∧ orders w' !! Order.ID order = Some o2.
Proof.
  intros Hfaults Hid Hlookup Hq1 Hq2 Hv1 Hv2.
  destruct w as [us os ms fs j0]. simpl in Hfaults, Hlookup. subst fs.
  assert (∀ j, GetOrder (server.id r1) (mkWorld us os ms [] j)
               = (inl order,
                  mkWorld us os ms [] (j ++ [FindOrder (server.id r1)])))
    as Hget.
  { intros j. unfold GetOrder, call, read, mbind, DB_bind, mret, DB_ret.
    simpl. by rewrite Hlookup. }
  cbn [server.run lookup list_lookup insert list_insert server.step].
  rewrite Hid. unfold mbind, DB_bind, mret, DB_ret.
  rewrite Hget. cbn iota beta. rewrite Hget. cbn iota beta.
  cbn [server.step]. unfold mbind, DB_bind, mret, DB_ret. rewrite Hq1.
  match goal with
  | |- context [handlers.UpdateOrderStatus_loaded order ?a ?b (Some q1) ?c ?w0] =>
      destruct (UpdateOrderStatus_loaded_accept order a b q1 c w0 Hv1 eq_refl)
        as (o1 & Hacc1 & ->)
  end.
  cbn iota beta. rewrite Hq2.
  match goal with
  | |- context [handlers.UpdateOrderStatus_loaded order ?a ?b (Some q2) ?c ?w0] =>
      destruct (UpdateOrderStatus_loaded_accept order a b q2 c w0 Hv2 eq_refl)
        as (o2 & Hacc2 & ->)
  end.
  exists o1, o2. eexists. split_and!; [reflexivity | done | done |].
  simpl. by rewrite lookup_insert_eq.
Qed.

(** C6. The handler takes no lock, so two requests on one order are not kept
    apart over the read, the validation and the write. From the confirmed
    order, let the restaurant's request to prepare it and the customer's
    request to cancel it both read before either writes: both are then
    inside the sequence with the same order, both are answered 200, and the
    order that stays stored is the cancelled one, whose history has no entry
    for the preparation the restaurant was told had succeeded. Served one
    after the other, the first is answered 200 and the second is rejected. *)
Theorem UpdateOrderStatus_race :
  let gs := [server.Serving sample.prepare; server.Serving sample.cancel] in
  let w := sample.confirmed.2 in
  orders w !! "o1" = Some sample.order1
  ∧ (server.run [0; 1]%nat gs w).1
    = [server.Loaded sample.prepare sample.order1;
       server.Loaded sample.cancel sample.order1]
  ∧ forallb server.inSequence (server.run [0; 1]%nat gs w).1 = true
  ∧ (∃ prepared cancelled,
       (server.run [0; 1; 0; 1]%nat gs w).1
       = [server.Responded
            (handlers.respondJSON http.StatusOK (handlers.OrderBody prepared));
          server.Responded
            (handlers.respondJSON http.StatusOK (handlers.OrderBody cancelled))]
       ∧ Order.Status prepared = StatusPreparing
       ∧ Order.Status cancelled = StatusCancelled
       ∧ orders (server.run [0; 1; 0; 1]%nat gs w).2 !! "o1" = Some cancelled
       ∧ StatusChange.ToStatus <$> Order.StatusHistory cancelled
         = [StatusPlaced; StatusConfirmed; StatusCancelled]
       ∧ journal (server.run [0; 1; 0; 1]%nat gs w).2
         = journal w ++ [FindOrder "o1"; FindOrder "o1";
                         ReplaceOrder prepared; ReplaceOrder cancelled])
  ∧ (∃ prepared,
       (server.run [0; 0; 1; 1]%nat gs w).1
       = [server.Responded
            (handlers.respondJSON http.StatusOK (handlers.OrderBody prepared));
          server.Responded
            (handlers.respondError http.StatusBadRequest
               (Error (ErrInvalid StatusPreparing StatusCancelled
                         [StatusReadyForPickup])))]
       ∧ orders (server.run [0; 0; 1; 1]%nat gs w).2 !! "o1" = Some prepared
       ∧ StatusChange.ToStatus <$> Order.StatusHistory prepared
         = [StatusPlaced; StatusConfirmed; StatusPreparing]).
Proof.
  cbv zeta. split_and!.
  - vm_compute. reflexivity.
  - vm_compute. reflexivity.
  - vm_compute. reflexivity.
  - eexists _, _. split_and!; vm_compute; reflexivity.
  - eexists. split_and!; vm_compute; reflexivity.
Qed.

(** * Further properties *)

(** ** The validator and the query together *)

Lemma GetAllowedTransitions_elem_of (S T : OrderStatus) (r : Role) :
  T ∈ statemachine.GetAllowedTransitions S r
  ↔ ∃ rules t, transitionMap !! S = Some rules ∧ t ∈ rules ∧ To t = T
               ∧ (r = "" ∨ r ∈ AllowedRoles t).
Proof.
  unfold statemachine.GetAllowedTransitions.
  destruct (transitionMap !! S) as [rules|].
  - rewrite allowedLoop_filter, app_nil_l, list_elem_of_fmap.
    setoid_rewrite list_elem_of_filter. split.
    + intros (t & -> & ? & ?). by exists rules, t.
    + intros (rules' & t & [= <-] & ? & <- & ?). by exists t.
  - split; [by intros ?%elem_of_nil | by intros (? & ? & ? & _)].
Qed.

Lemma GetAllowedTransitions_accepts (S T : OrderStatus) (r : Role) :
  r ≠ "" →
  T ∈ statemachine.GetAllowedTransitions S r
  ↔ ValidateTransition S T r = None.
Proof.
  intros Hr. rewrite GetAllowedTransitions_elem_of. split.
  - intros (rules & t & Hcur & Ht & Hto & [?|Hin]); [done|].
    rewrite (ValidateTransition_rule S T r rules t Hcur Ht Hto).
    apply roleLoop_elem_of in Hin. by rewrite Hin.
  - intros (rules & t & ? & ? & ? & ?)%ValidateTransition_accept.
    exists rules, t. auto.
Qed.

(** X1. For a role that is not the empty string, the statuses the query
    lists are exactly the ones the validator accepts for that role. *)
Theorem GetAllowedTransitions_iff_accepted (S T : OrderStatus) (r : Role) :
  r ≠ "" →
  T ∈ statemachine.GetAllowedTransitions S r
  ↔ ValidateTransition S T r = None.
Proof. apply GetAllowedTransitions_accepts. Qed.

Lemma GetAllowedTransitions_iff_accepted_witness :
  StatusCancelled ∈ statemachine.GetAllowedTransitions StatusConfirmed RoleCustomer
  ↔ ValidateTransition StatusConfirmed StatusCancelled RoleCustomer = None.
Proof.
  apply (GetAllowedTransitions_iff_accepted StatusConfirmed StatusCancelled
           RoleCustomer).
  compute_done.
Defined.

(** X2. With the empty role the query lists exactly the statuses that the
    validator accepts for some role. *)
Theorem GetAllowedTransitions_unfiltered (S T : OrderStatus) :
  T ∈ statemachine.GetAllowedTransitions S ""
  ↔ ∃ role, ValidateTransition S T role = None.
Proof.
  rewrite GetAllowedTransitions_elem_of. split.
  - intros (rules & t & Hcur & Ht & Hto & _).
    destruct (transitionMap_roles S rules t Hcur Ht) as [Hne _].
    destruct (AllowedRoles t) as [|role roles] eqn:Hroles; [done|].
    exists role. rewrite (ValidateTransition_rule S T role rules t Hcur Ht Hto).
    replace (roleLoop (AllowedRoles t) role) with true; [done|].
    symmetry. apply roleLoop_elem_of. rewrite Hroles. by left.
  - intros (role & (rules & t & ? & ? & ? & _)%ValidateTransition_accept).
    exists rules, t. auto.
Qed.

(** ** The lifecycle has no way back *)

Lemma accepted_rank (S T : OrderStatus) (role : Role) :
  ValidateTransition S T role = None → (rank S < rank T)%nat.
Proof.
  intros (rules & t & Hcur & Ht & <- & _)%ValidateTransition_accept.
  table_cases Hcur;
    repeat (apply elem_of_cons in Ht as [->|Ht]);
    try (by apply elem_of_nil in Ht); vm_compute; lia.
Qed.

Lemma rank_le_6 (S : OrderStatus) : (rank S ≤ 6)%nat.
Proof. unfold rank. repeat case_decide; lia. Qed.

Lemma Walk_rank (S : OrderStatus) (l : list OrderStatus) :
  Walk (S :: l) →
  (length (S :: l) + rank S ≤ 7)%nat
  ∧ ∀ T, T ∈ l → (rank S < rank T)%nat.
Proof.
  revert S. induction l as [|T l IH]; intros S Hwalk.
  - split; [pose proof (rank_le_6 S); simpl; lia | by intros T ?%elem_of_nil].
  - inversion Hwalk as [| |S' T' role l' Hstep Hrest]; subst.
    apply accepted_rank in Hstep. destruct (IH _ Hrest) as [Hlen Hlater].
    split; [simpl in *; lia|].
    intros U [->|HU]%elem_of_cons; [done|].
    specialize (Hlater U HU). lia.
Qed.

Lemma Walk_bounded (l : list OrderStatus) :
  Walk l → NoDup l ∧ (length l ≤ 7)%nat.
Proof.
  induction l as [|S l IH]; intros Hwalk.
  - split; [constructor | simpl; lia].
  - destruct (Walk_rank S l Hwalk) as [Hlen Hlater].
    assert (Walk l) as Hrest
      by (inversion Hwalk; subst; [constructor | done]).
    split; [|lia].
    apply NoDup_cons. split; [|by apply IH].
    intros Hin. specialize (Hlater S Hin). lia.
Qed.

(** X3. A run of accepted transitions never comes back to a status it has
    left, and visits at most seven statuses. *)
Theorem Walk_no_return (l : list OrderStatus) :
  Walk l → NoDup l ∧ (length l ≤ 7)%nat.
Proof. apply Walk_bounded. Qed.

Lemma Walk_no_return_witness :
  NoDup [StatusPlaced; StatusConfirmed; StatusCancelled]
  ∧ (length [StatusPlaced; StatusConfirmed; StatusCancelled] ≤ 7)%nat.
Proof.
  apply (Walk_no_return [StatusPlaced; StatusConfirmed; StatusCancelled]).
  apply (Walk_step StatusPlaced StatusConfirmed RoleRestaurant);
    [vm_compute; reflexivity|].
  apply (Walk_step StatusConfirmed StatusCancelled RoleCustomer);
    [vm_compute; reflexivity|].
  apply Walk_one.
Defined.

(** X4. Who may do what: a customer is accepted only to cancel; a
    cancellation is accepted only from PLACED or CONFIRMED, and never for a
    driver; a driver is accepted only from READY_FOR_PICKUP on; and the
    requested status of an accepted transition is never PLACED. *)
Theorem ValidateTransition_roles (S T : OrderStatus) (role : Role) :
  ValidateTransition S T role = None →
  (role = RoleCustomer → T = StatusCancelled)
  ∧ (T = StatusCancelled →
     S ∈ [StatusPlaced; StatusConfirmed] ∧ role ≠ RoleDriver)
  ∧ (role = RoleDriver →
     S ∈ [StatusReadyForPickup; StatusPickedUp; StatusOutForDelivery])
  ∧ T ≠ StatusPlaced.
Proof.
  intros (rules & t & Hcur & Ht & <- & Hrole)%ValidateTransition_accept.
  table_cases Hcur;
    repeat (apply elem_of_cons in Ht as [->|Ht]);
    try (by apply elem_of_nil in Ht); simpl in Hrole;
    repeat (apply elem_of_cons in Hrole as [->|Hrole]);
    try (by apply elem_of_nil in Hrole);
    (split_and!; [intros; try done | intros; split; try done | intros; try done | done]);
    compute_done.
Qed.

Lemma ValidateTransition_roles_witness :
  (RoleCustomer = RoleCustomer → StatusCancelled = StatusCancelled)
  ∧ (StatusCancelled = StatusCancelled →
     StatusConfirmed ∈ [StatusPlaced; StatusConfirmed]
     ∧ RoleCustomer ≠ RoleDriver)
  ∧ (RoleCustomer = RoleDriver →
     StatusConfirmed
     ∈ [StatusReadyForPickup; StatusPickedUp; StatusOutForDelivery])
  ∧ StatusCancelled ≠ StatusPlaced.
Proof.
  apply (ValidateTransition_roles StatusConfirmed StatusCancelled RoleCustomer).
  vm_compute. reflexivity.
Defined.

(** ** The store, written and read back *)

Lemma GetOrder_quiet (id : string) (w : World) :
  faults w = [] →
  GetOrder id w
  = (match orders w !! id with
     | Some order => inl order
     | None => inr ("order not found: " +:+ id)
     end,
     mkWorld (users w) (orders w) (menuItems w) [] (journal w ++ [FindOrder id])).
Proof.
  intros Hf. unfold GetOrder, call, read, mbind, DB_bind, mret, DB_ret.
  rewrite Hf. simpl. by destruct (orders w !! id).
Qed.




(** ** What the order handlers write *)

Lemma UpdateOrderStatus_inr (id role userID : string)
    (req : option UpdateStatusRequest.t) (now : Time) (w : World) (err : string) :
  (GetOrder id w).1 = inr err →
  handlers.UpdateOrderStatus id role userID req now w
  = (handlers.respondError http.StatusNotFound err, (GetOrder id w).2).
Proof.
  unfold handlers.UpdateOrderStatus, mbind, DB_bind.
  destruct (GetOrder id w) as [[order|e] w1]; simpl; [done|]. by intros [= ->].
Qed.

Lemma GetOrder_frame (id : string) (w : World) :
  users (GetOrder id w).2 = users w
  ∧ orders (GetOrder id w).2 = orders w
  ∧ menuItems (GetOrder id w).2 = menuItems w.
Proof.
  unfold GetOrder, call, read, mbind, DB_bind, mret, DB_ret.
  destruct (faults w) as [|[msg|] rest]; simpl; try done;
    by destruct (orders w !! id).
Qed.

Lemma UpdateOrderStatus_effect (id role userID : string)
    (req : option UpdateStatusRequest.t) (now : Time) (w : World) :
  let '(response, w') := handlers.UpdateOrderStatus id role userID req now w in
  users w' = users w
  ∧ menuItems w' = menuItems w
  ∧ (handlers.code response ≠ http.StatusOK → orders w' = orders w)
  ∧ (handlers.code response = http.StatusOK →
     ∃ order r order',
       orders w !! id = Some order ∧ req = Some r
       ∧ ValidateTransition (Order.Status order)
           (UpdateStatusRequest.Status r) role = None
       ∧ handlers.body response = handlers.OrderBody order'
       ∧ accepted order role userID r now order'
       ∧ orders w' = <[Order.ID order := order']> (orders w)).
Proof.
  destruct (GetOrder id w) as [[order|err] w1] eqn:Hget.
  - assert ((GetOrder id w).1 = inl order) as Hfst by by rewrite Hget.
    destruct (GetOrder_inl id w order Hfst) as [Hlookup _].
    destruct req as [r|].
    + pose proof (UpdateOrderStatus_run id role userID r now w order Hfst)
        as Hrun.
      destruct (ValidateTransition _ _ role) as [e|] eqn:Hvalid.
      * destruct Hrun as (status & [-> | ->] & ->); simpl; by split_and!.
      * destruct Hrun as (order' & Hacc & ->).
        destruct (faults w !! 1%nat) as [[?|]|]; simpl;
          (split_and!; [done | done | done |]); try done;
          intros _; by exists order, r, order'.
    + unfold handlers.UpdateOrderStatus, mbind, DB_bind. rewrite Hget.
      pose proof (GetOrder_frame id w) as Hframe. rewrite Hget in Hframe.
      simpl in *. destruct Hframe as (? & ? & ?). by split_and!.
  - rewrite (UpdateOrderStatus_inr id role userID req now w err)
      by by rewrite Hget.
    pose proof (GetOrder_frame id w) as Hframe. rewrite Hget in *.
    simpl in *. destruct Hframe as (? & ? & ?). by split_and!.
Qed.

(** X6. The update handler never touches the users or the menu items; it
    changes the orders only when it answers 200; and it answers 200 only when
    the order was found, the body decoded and the validator accepted the
    transition from the stored status for the caller's role, the stored
    order then being the one it returns. *)
Theorem UpdateOrderStatus_safe (id role userID : string)
    (req : option UpdateStatusRequest.t) (now : Time) (w : World) :
  let '(response, w') := handlers.UpdateOrderStatus id role userID req now w in
  users w' = users w
  ∧ menuItems w' = menuItems w
  ∧ (handlers.code response ≠ http.StatusOK → orders w' = orders w)
  ∧ (handlers.code response = http.StatusOK →
     ∃ order r order',
       orders w !! id = Some order ∧ req = Some r
       ∧ ValidateTransition (Order.Status order)
           (UpdateStatusRequest.Status r) role = None
       ∧ handlers.body response = handlers.OrderBody order'
       ∧ accepted order role userID r now order'
       ∧ orders w' = <[Order.ID order := order']> (orders w)).
Proof. apply UpdateOrderStatus_effect. Qed.


Lemma GetMenuItem_frame (id : string) (w : World) :
  users (GetMenuItem id w).2 = users w
  ∧ orders (GetMenuItem id w).2 = orders w
  ∧ menuItems (GetMenuItem id w).2 = menuItems w
  ∧ ∀ item, (GetMenuItem id w).1 = inl item → menuItems w !! id = Some item.
Proof.
  unfold GetMenuItem, call, read, mbind, DB_bind, mret, DB_ret.
  destruct (faults w) as [|[msg|] rest]; simpl; try done;
    destruct (menuItems w !! id); simpl; split_and!; try done;
    by intros ? [= ->].
Qed.

Lemma GetUser_frame (id : string) (w : World) :
  users (GetUser id w).2 = users w
  ∧ orders (GetUser id w).2 = orders w
  ∧ menuItems (GetUser id w).2 = menuItems w
  ∧ ∀ user, (GetUser id w).1 = inl user → users w !! id = Some user.
Proof.
  unfold GetUser, call, read, mbind, DB_bind, mret, DB_ret.
  destruct (faults w) as [|[msg|] rest]; simpl; try done;
    destruct (users w !! id); simpl; split_and!; try done;
    by intros ? [= ->].
Qed.

(** The loop over the requested items reads menu items and writes nothing;
    when it runs to its end, the order items it has added match the
    requested ones, one for one and in order, and the total has grown by
    their lines. *)
Lemma itemLoop_effect (items : list OrderItemRequest.t) (restaurantID : string)
    (orderItems : list OrderItem.t) (total : float64) (w : World) :
  let '(r, w') := handlers.itemLoop items restaurantID orderItems total w in
  users w' = users w ∧ orders w' = orders w ∧ menuItems w' = menuItems w
  ∧ ∀ orderItems' total', r = inr (orderItems', total') →
      ∃ new, orderItems' = orderItems ++ new
        ∧ Forall2 (itemOf (menuItems w) restaurantID) items new
        ∧ total' = fold_left addLine new total.
Proof.
  revert orderItems total w.
  induction items as [|ri rest IH]; intros orderItems total w; simpl.
  - split_and!; try done. intros ? ? [= <- <-]. exists [].
    rewrite app_nil_r. by split_and!.
  - case_decide as Hq; [by split_and!|].
    unfold mbind, DB_bind.
    pose proof (GetMenuItem_frame (OrderItemRequest.MenuItemID ri) w)
      as (Hu & Ho & Hm & Hitem).
    destruct (GetMenuItem _ w) as [[menuItem|err] w1]; simpl in *;
      [|by split_and!].
    case_decide as Hrid; [by split_and!|].
    destruct (MenuItem.Available menuItem) eqn:Havail; simpl; [|by split_and!].
    specialize (IH (orderItems
                      ++ [OrderItem.mk (MenuItem.ID menuItem)
                            (MenuItem.Name menuItem)
                            (OrderItemRequest.Quantity ri)
                            (MenuItem.Price menuItem)])
                   (PrimFloat.add total
                      (PrimFloat.mul (MenuItem.Price menuItem)
                         (handlers.float64_of_int
                            (OrderItemRequest.Quantity ri)))) w1).
    destruct (handlers.itemLoop rest _ _ _ w1) as [r w2].
    destruct IH as (Hu' & Ho' & Hm' & IH).
    split_and!; [congruence..|].
    intros orderItems' total' ->.
    destruct (IH _ _ eq_refl) as (new & -> & Hall & ->).
    eexists (_ :: new). rewrite <- app_assoc. split_and!; [done | | done].
    constructor; [|by rewrite <- Hm].
    split; [lia|]. exists menuItem. split_and!; try done.
    by apply Hitem.
Qed.

Lemma CreateOrder_effect (role userID : string)
    (req : option CreateOrderFromMenuRequest.t) (newID : string) (now : Time)
    (w : World) :
  let '(response, w') := handlers.CreateOrder role userID req newID now w in
  users w' = users w
  ∧ menuItems w' = menuItems w
  ∧ (handlers.code response ≠ http.StatusCreated → orders w' = orders w)
  ∧ (handlers.code response = http.StatusCreated →
     ∃ r restaurant orderItems,
       role = RoleCustomer ∧ req = Some r
       ∧ users w !! CreateOrderFromMenuRequest.RestaurantID r = Some restaurant
       ∧ User.Role restaurant = RoleRestaurant
       ∧ CreateOrderFromMenuRequest.DeliveryAddress r ≠ ""
       ∧ orderItems ≠ []
       ∧ Forall2 (itemOf (menuItems w) (CreateOrderFromMenuRequest.RestaurantID r))
           (CreateOrderFromMenuRequest.Items r) orderItems
       ∧ handlers.body response
         = handlers.OrderBody
             (Order.mk newID userID (CreateOrderFromMenuRequest.RestaurantID r)
                "" orderItems (fold_left addLine orderItems PrimFloat.zero)
                StatusPlaced
                [StatusChange.mk "" StatusPlaced userID RoleCustomer now]
                (CreateOrderFromMenuRequest.DeliveryAddress r) now now)
       ∧ orders w'
         = <[newID :=
               Order.mk newID userID (CreateOrderFromMenuRequest.RestaurantID r)
                 "" orderItems (fold_left addLine orderItems PrimFloat.zero)
                 StatusPlaced
                 [StatusChange.mk "" StatusPlaced userID RoleCustomer now]
                 (CreateOrderFromMenuRequest.DeliveryAddress r) now now]>
             (orders w)).
Proof.
  unfold handlers.CreateOrder.
  case_decide as Hrole; [by split_and!|]. destruct req as [r|]; [|by split_and!].
  case_decide as Hrid; [by split_and!|].
  case_decide as Hlen; [by split_and!|].
  case_decide as Haddr; [by split_and!|].
  unfold mbind, DB_bind.
  pose proof (GetUser_frame (CreateOrderFromMenuRequest.RestaurantID r) w)
    as (Hu & Ho & Hm & Huser).
  destruct (GetUser _ w) as [[restaurant|err] w1]; simpl in *; [|by split_and!].
  case_decide as Hrest; [by split_and!|].
  pose proof (itemLoop_effect (CreateOrderFromMenuRequest.Items r)
                (CreateOrderFromMenuRequest.RestaurantID r) [] PrimFloat.zero w1)
    as Hloop.
  destruct (handlers.itemLoop _ _ _ _ w1) as [[response|[orderItems total]] w2]
    eqn:Hrun.
  - destruct Hloop as (Hu' & Ho' & Hm' & _).
    apply itemLoop_inl in Hrun.
    split_and!; [congruence | congruence | intros _; congruence |].
    rewrite Hrun. by intros [=].
  - destruct Hloop as (Hu' & Ho' & Hm' & Hitems).
    destruct (Hitems _ _ eq_refl) as (new & Hnew & Hall & ->).
    simpl in Hnew. subst new. rewrite Hm in Hall.
    assert (role = RoleCustomer) as Hcust
      by (destruct (decide (role = RoleCustomer)); [done | exfalso; auto]).
    assert (User.Role restaurant = RoleRestaurant) as Hisrest
      by (destruct (decide (User.Role restaurant = RoleRestaurant));
          [done | exfalso; auto]).
    assert (orderItems ≠ []) as Hne.
    { intros ->. apply Forall2_nil_inv_r in Hall. by rewrite Hall in Hlen. }
    rewrite SaveOrder_run.
    destruct (head (faults w2)) as [[err|]|]; simpl.
    + split_and!; [congruence | congruence | intros _; congruence | by intros [=]].
    + split_and!; [congruence | congruence | done |].
      intros _. exists r, restaurant, orderItems.
      split_and!; try done; [by apply Huser | by rewrite Ho', Ho].
    + split_and!; [congruence | congruence | done |].
      intros _. exists r, restaurant, orderItems.
      split_and!; try done; [by apply Huser | by rewrite Ho', Ho].
Qed.

(** X7. Order creation never touches the users or the menu items, and
    changes the orders only when it answers 201: the caller is then a
    customer, and the order it returns is stored under the new id, with the
    caller as its customer, no driver, the status PLACED and the two
    timestamps equal. *)
Theorem CreateOrder_stores (role userID : string)
    (req : option CreateOrderFromMenuRequest.t) (newID : string) (now : Time)
    (w : World) :
  let '(response, w') := handlers.CreateOrder role userID req newID now w in
  users w' = users w
  ∧ menuItems w' = menuItems w
  ∧ (handlers.code response ≠ http.StatusCreated → orders w' = orders w)
  ∧ (handlers.code response = http.StatusCreated →
     role = RoleCustomer
     ∧ ∃ order, handlers.body response = handlers.OrderBody order
         ∧ orders w' = <[newID := order]> (orders w)
         ∧ Order.ID order = newID
         ∧ Order.CustomerID order = userID
         ∧ Order.DriverID order = ""
         ∧ Order.Status order = StatusPlaced
         ∧ Order.CreatedAt order = now
         ∧ Order.UpdatedAt order = now).
Proof.
  pose proof (CreateOrder_effect role userID req newID now w) as H.
  destruct (handlers.CreateOrder role userID req newID now w) as [response w'].
  destruct H as (Hu & Hm & Hno & Hyes). split_and!; [done..|].
  intros Hcode.
  destruct (Hyes Hcode) as (r & restaurant & orderItems & Hc & _ & _ & _ & _
                            & _ & _ & Hbody & Horders).
  split; [done|]. eexists. by split_and!.
Qed.



(** ** Orders under their ids *)

Lemma keyed_insert (w w' : World) (order : Order.t) :
  keyed w → orders w' = <[Order.ID order := order]> (orders w) → keyed w'.
Proof.
  intros Hk Ho k o. rewrite Ho.
  destruct (decide (Order.ID order = k)) as [<-|Hne].
  - rewrite lookup_insert_eq. by intros [= <-].
  - rewrite lookup_insert_ne by done. apply Hk.
Qed.

Lemma keyed_same (w w' : World) : keyed w → orders w' = orders w → keyed w'.
Proof. intros Hk Ho k o. rewrite Ho. apply Hk. Qed.

Lemma step_orders (g : server.Goroutine) (w : World) :
  orders (server.step g w).2 = orders w
  ∨ ∃ order, orders (server.step g w).2 = <[Order.ID order := order]> (orders w).
Proof.
  destruct g as [r | r order | response]; simpl; unfold mbind, DB_bind.
  - pose proof (GetOrder_frame (server.id r) w) as (_ & Ho & _).
    destruct (GetOrder _ w) as [[?|?] ?]; by left.
  - unfold handlers.UpdateOrderStatus_loaded.
    destruct (server.req r) as [q|]; [|by left].
    destruct (ValidateTransition _ _ _) as [e|].
    + repeat match goal with
        | |- context [ValidateTransition ?a ?b ?c] =>
            destruct (ValidateTransition a b c)
        end; by left.
    + cbv zeta. unfold mbind, DB_bind.
      set (order' := Order.setUpdatedAt (server.now r) _).
      rewrite SaveOrder_run.
      destruct (head (faults w)) as [[?|]|]; [by left|..];
        right; by exists order'.
  - by left.
Qed.

Lemma run_keyed (schedule : list nat) (gs : list server.Goroutine) (w : World) :
  keyed w → keyed (server.run schedule gs w).2.
Proof.
  revert gs w. induction schedule as [|i rest IH]; intros gs w Hk; simpl; [done|].
  destruct (gs !! i) as [g|]; [|by apply IH].
  unfold mbind, DB_bind.
  pose proof (step_orders g w) as Hstep.
  destruct (server.step g w) as [g' w1]. apply IH.
  destruct Hstep as [Ho | [order Ho]]; simpl in Ho.
  - by apply (keyed_same w).
  - by apply (keyed_insert w w1 order).
Qed.

(** X9. If every order is stored under its own id, it stays so after order
    creation, after a status update, and after any number of status updates
    served at once, whatever the schedule. *)
Theorem keyed_kept (w : World) :
  keyed w →
  (∀ role userID req newID now,
     keyed (handlers.CreateOrder role userID req newID now w).2)
  ∧ (∀ id role userID req now,
       keyed (handlers.UpdateOrderStatus id role userID req now w).2)
  ∧ (∀ schedule gs, keyed (server.run schedule gs w).2).
Proof.
  intros Hk. split_and!.
  - intros role userID req newID now.
    pose proof (CreateOrder_effect role userID req newID now w) as H.
    destruct (handlers.CreateOrder role userID req newID now w)
      as [response w'].
    destruct H as (_ & _ & Hno & Hyes). simpl.
    destruct (decide (handlers.code response = http.StatusCreated)) as [Hc|Hc].
    + destruct (Hyes Hc) as (r & ? & ? & _ & _ & _ & _ & _ & _ & _ & _ & Ho).
      by eapply (keyed_insert w w' (Order.mk newID _ _ _ _ _ _ _ _ _ _)).
    + by apply (keyed_same w), Hno.
  - intros id role userID req now.
    pose proof (UpdateOrderStatus_effect id role userID req now w) as H.
    destruct (handlers.UpdateOrderStatus id role userID req now w)
      as [response w'].
    destruct H as (_ & _ & Hno & Hyes). simpl.
    destruct (decide (handlers.code response = http.StatusOK)) as [Hc|Hc].
    + destruct (Hyes Hc) as (order & r & order' & _ & _ & _ & _ & Hacc & Ho).
      destruct Hacc as (Hid & _). rewrite <- Hid in Ho.
      by apply (keyed_insert w w' order').
    + by apply (keyed_same w), Hno.
  - intros schedule gs. by apply run_keyed.
Qed.

Lemma sample_placed_keyed : keyed sample.placed.2.
Proof.
  intros k order Hlookup.
  destruct (decide (k = "o1")) as [->|Hne].
  - vm_compute in Hlookup. by injection Hlookup as <-.
  - assert (orders sample.placed.2 = <[ "o1" := sample.order0 ]> ∅) as Ho
      by (vm_compute; reflexivity).
    rewrite Ho, lookup_insert_ne, lookup_empty in Hlookup by done. done.
Qed.

Lemma keyed_kept_witness :
  keyed (handlers.UpdateOrderStatus "o1" RoleRestaurant "r1"
           (Some (UpdateStatusRequest.mk StatusConfirmed "")) 20
           sample.placed.2).2.
Proof.
  apply (keyed_kept sample.placed.2). apply sample_placed_keyed.
Defined.

(** X10. If every order is stored under its own id, a status update of one
    order leaves every other order as it was. *)
Theorem UpdateOrderStatus_frame (id role userID : string)
    (req : option UpdateStatusRequest.t) (now : Time) (w : World) :
  keyed w →
  ∀ k, k ≠ id →
    orders (handlers.UpdateOrderStatus id role userID req now w).2 !! k
    = orders w !! k.
Proof.
  intros Hk k Hne.
  pose proof (UpdateOrderStatus_effect id role userID req now w) as H.
  destruct (handlers.UpdateOrderStatus id role userID req now w)
    as [response w'].
  destruct H as (_ & _ & Hno & Hyes). simpl.
  destruct (decide (handlers.code response = http.StatusOK)) as [Hc|Hc].
  - destruct (Hyes Hc) as (order & r & order' & Hlookup & _ & _ & _ & _ & ->).
    rewrite (Hk id order Hlookup). by rewrite lookup_insert_ne.
  - by rewrite (Hno Hc).
Qed.

Lemma UpdateOrderStatus_frame_witness :
  orders (handlers.UpdateOrderStatus "o1" RoleRestaurant "r1"
            (Some (UpdateStatusRequest.mk StatusConfirmed "")) 20
            sample.placed.2).2 !! "o2"
  = orders sample.placed.2 !! "o2".
Proof.
  apply (UpdateOrderStatus_frame "o1" RoleRestaurant "r1"
           (Some (UpdateStatusRequest.mk StatusConfirmed "")) 20
           sample.placed.2).
  - apply sample_placed_keyed.
  - compute_done.
Defined.

(** ** What every produced order keeps *)

Lemma legalFrom_snoc (prev : OrderStatus) (history : list StatusChange.t)
    (e : StatusChange.t) :
  legalFrom prev (history ++ [e])
  ↔ legalFrom prev history
    ∧ StatusChange.FromStatus e
      = default prev (StatusChange.ToStatus <$> last history)
    ∧ ValidateTransition
        (default prev (StatusChange.ToStatus <$> last history))
        (StatusChange.ToStatus e) (StatusChange.Role e) = None.
Proof.
  revert prev. induction history as [|e' rest IH]; intros prev; simpl.
  - split; [by intros (-> & ? & _) | by intros (_ & -> & ?)].
  - rewrite IH.
    assert (default prev (StatusChange.ToStatus <$> last (e' :: rest))
            = default (StatusChange.ToStatus e')
                (StatusChange.ToStatus <$> last rest)) as ->.
    { destruct rest as [|e'' rest]; [done|]. rewrite last_cons_cons.
      by destruct (last (e'' :: rest)) eqn:Hlast;
        [|by apply last_None in Hlast]. }
    tauto.
Qed.

Lemma legalFrom_Walk (prev : OrderStatus) (history : list StatusChange.t) :
  legalFrom prev history → Walk (prev :: (StatusChange.ToStatus <$> history)).
Proof.
  revert prev. induction history as [|e rest IH]; intros prev; simpl.
  - intros _. constructor.
  - intros (_ & Hstep & Hrest).
    apply (Walk_step prev _ (StatusChange.Role e)); [done | by apply IH].
Qed.

(** What the two handlers keep of an order: its history opens with the
    creation entry and goes on by accepted transitions, and its status is the
    one the history has reached. *)
Lemma Produced_legal (order : Order.t) :
  Produced order →
  ∃ e rest, Order.StatusHistory order = e :: rest
    ∧ StatusChange.FromStatus e = ""
    ∧ StatusChange.ToStatus e = StatusPlaced
    ∧ StatusChange.Role e = RoleCustomer
    ∧ StatusChange.ChangedBy e = Order.CustomerID order
    ∧ StatusChange.Timestamp e = Order.CreatedAt order
    ∧ legalFrom StatusPlaced rest
    ∧ Order.Status order
      = default StatusPlaced (StatusChange.ToStatus <$> last rest)
    ∧ Order.UpdatedAt order
      = default (Order.CreatedAt order) (StatusChange.Timestamp <$> last rest).
Proof.
  induction 1 as [role userID req newID now w order H
                 |id role userID req now w order order' _ IH Hget H].
  - apply CreateOrder_created in H as (? & ? & ? & ? & ->).
    eexists _, []. by split_and!.
  - destruct IH as (e & rest & Hh & ? & ? & ? & ? & ? & Hlegal & Hstatus & ?).
    apply (UpdateOrderStatus_ok _ _ _ _ _ _ _ _ Hget) in H
      as (r & _ & Hvalid & Hacc).
    destruct Hacc as (_ & Hcust & _ & _ & _ & _ & Hs' & Hh' & _ & Hcreated & Hup).
    exists e, (rest ++ [StatusChange.mk (Order.Status order)
                          (UpdateStatusRequest.Status r) userID role now]).
    rewrite Hh', Hh, Hcust, Hcreated, Hs', Hup, last_snoc. simpl.
    split_and!; try done.
    apply legalFrom_snoc. simpl. rewrite <- Hstatus. by split_and!.
Qed.

(** X11. The history of every produced order is a legal walk: it opens
    with the creation entry, from the empty status to PLACED by the order's
    customer, and every later entry starts from the status the entry before
    it reached and is a transition that the validator accepts for the role
    the entry records. No status occurs twice as a to-status, and the
    history has at most seven entries. *)
Theorem Produced_history_legal (order : Order.t) :
  Produced order →
  legalHistory (Order.StatusHistory order)
  ∧ (∃ e, head (Order.StatusHistory order) = Some e
        ∧ StatusChange.ChangedBy e = Order.CustomerID order)
  ∧ NoDup (StatusChange.ToStatus <$> Order.StatusHistory order)
  ∧ (length (Order.StatusHistory order) ≤ 7)%nat.
Proof.
  intros (e & rest & Hh & Hfrom & Hto & Hrole & Hby & _ & Hlegal & _)%Produced_legal.
  pose proof Hlegal as Hwalk.
  apply legalFrom_Walk, Walk_bounded in Hwalk as [Hnd Hlen].
  rewrite Hh. split_and!.
  - by exists e, rest.
  - by exists e.
  - simpl. by rewrite Hto.
  - simpl in *. by rewrite length_fmap in Hlen.
Qed.

Lemma sample_order1_Produced : Produced sample.order1.
Proof.
  apply (Produced_update "o1" RoleRestaurant "r1"
           (Some (UpdateStatusRequest.mk StatusConfirmed "")) 20
           sample.placed.2 sample.order0).
  - apply (Produced_create RoleCustomer "c1" (Some sample.menuRequest) "o1" 10
             sample.empty).
    vm_compute. reflexivity.
  - vm_compute. reflexivity.
  - vm_compute. reflexivity.
Qed.

Lemma Produced_history_legal_witness :
  legalHistory (Order.StatusHistory sample.order1)
  ∧ (∃ e, head (Order.StatusHistory sample.order1) = Some e
        ∧ StatusChange.ChangedBy e = Order.CustomerID sample.order1)
  ∧ NoDup (StatusChange.ToStatus <$> Order.StatusHistory sample.order1)
  ∧ (length (Order.StatusHistory sample.order1) ≤ 7)%nat.
Proof.
  apply (Produced_history_legal sample.order1). apply sample_order1_Produced.
Defined.

(** X12. The timestamps of every produced order are those of its history:
    it was created at the instant of the first entry and updated at the
    instant of the last. *)
Theorem Produced_timestamps (order : Order.t) :
  Produced order →
  StatusChange.Timestamp <$> head (Order.StatusHistory order)
  = Some (Order.CreatedAt order)
  ∧ StatusChange.Timestamp <$> last (Order.StatusHistory order)
    = Some (Order.UpdatedAt order).
Proof.
  intros (e & rest & Hh & _ & _ & _ & _ & Hts & _ & _ & Hup)%Produced_legal.
  rewrite Hh. split; [simpl; by rewrite Hts|].
  rewrite last_cons, Hup.
  destruct (last rest) as [l|]; simpl; by rewrite ?Hts.
Qed.

Lemma Produced_timestamps_witness :
  StatusChange.Timestamp <$> head (Order.StatusHistory sample.order1)
  = Some (Order.CreatedAt sample.order1)
  ∧ StatusChange.Timestamp <$> last (Order.StatusHistory sample.order1)
    = Some (Order.UpdatedAt sample.order1).
Proof.
  apply (Produced_timestamps sample.order1). apply sample_order1_Produced.
Defined.

Lemma Produced_NoDup (order : Order.t) :
  Produced order → NoDup (StatusChange.ToStatus <$> Order.StatusHistory order).
Proof.
  intros (e & rest & Hh & _ & Hto & _ & _ & _ & Hlegal & _)%Produced_legal.
  apply legalFrom_Walk, Walk_bounded in Hlegal as [Hnd _].
  rewrite Hh. simpl. by rewrite Hto.
Qed.

Lemma pickup_by_driver (S : OrderStatus) (role : Role) :
  ValidateTransition S StatusPickedUp role = None → role = RoleDriver.
Proof.
  intros (rules & t & Hcur & Ht & Hto & Hrole)%ValidateTransition_accept.
  table_cases Hcur;
    repeat (apply elem_of_cons in Ht as [->|Ht]);
    try (by apply elem_of_nil in Ht); try discriminate Hto;
    simpl in Hrole;
    repeat (apply elem_of_cons in Hrole as [->|Hrole]);
    try (by apply elem_of_nil in Hrole); done.
Qed.

(** X13. The driver of every produced order is whoever picked it up: every
    entry of its history into PICKED_UP was made by the order's driver, and
    an order with a driver has such an entry, made in the role of driver. *)
Theorem Produced_driver (order : Order.t) :
  Produced order →
  (∀ e, e ∈ Order.StatusHistory order →
     StatusChange.ToStatus e = StatusPickedUp →
     StatusChange.ChangedBy e = Order.DriverID order)
  ∧ (Order.DriverID order ≠ "" →
     ∃ e, e ∈ Order.StatusHistory order
       ∧ StatusChange.ToStatus e = StatusPickedUp
       ∧ StatusChange.ChangedBy e = Order.DriverID order
       ∧ StatusChange.Role e = RoleDriver).
Proof.
  induction 1 as [role userID req newID now w order H
                 |id role userID req now w order order' Hprod IH Hget H].
  - apply CreateOrder_created in H as (? & ? & ? & ? & ->). simpl. split.
    + intros e ->%list_elem_of_singleton. by intros [=].
    + done.
  - destruct IH as [IHall IHsome].
    assert (Produced order') as Hprod'
      by by apply (Produced_update id role userID req now w order order').
    apply Produced_NoDup in Hprod'.
    apply (UpdateOrderStatus_ok _ _ _ _ _ _ _ _ Hget) in H
      as (r & _ & Hvalid & Hacc).
    destruct Hacc as (_ & _ & _ & Hdriver & _ & _ & _ & Hh & _).
    rewrite Hh in Hprod' |- *.
    rewrite fmap_app in Hprod'. simpl in Hprod'.
    apply NoDup_app in Hprod' as (_ & Hfresh & _).
    assert (∀ e, e ∈ Order.StatusHistory order →
                 StatusChange.ToStatus e ≠ UpdateStatusRequest.Status r)
      as Hnew.
    { intros e He Heq. apply (Hfresh (StatusChange.ToStatus e)).
      - by apply list_elem_of_fmap_2.
      - rewrite Heq. by left. }
    destruct (decide (UpdateStatusRequest.Status r = StatusPickedUp))
      as [Hpick|Hpick].
    + assert (Order.DriverID order = "") as Hnone.
      { destruct (decide (Order.DriverID order = "")) as [|Hd]; [done|].
        destruct (IHsome Hd) as (e & He & Hto & _).
        destruct (Hnew e He). by rewrite Hpick. }
      rewrite decide_True in Hdriver by done. rewrite Hdriver. split.
      * intros e [He| ->%list_elem_of_singleton]%elem_of_app Hto; [|done].
        destruct (Hnew e He). by rewrite Hpick.
      * intros _. eexists. split; [apply elem_of_app; right; by left|].
        simpl. split_and!; try done.
        rewrite Hpick in Hvalid. by apply pickup_by_driver in Hvalid.
    + rewrite decide_False in Hdriver by (by intros [? _]).
      rewrite Hdriver. split.
      * intros e [He| ->%list_elem_of_singleton]%elem_of_app Hto;
          [by apply IHall | done].
      * intros Hd. destruct (IHsome Hd) as (e & He & ?).
        exists e. split; [apply elem_of_app; by left | done].
Qed.

Lemma journey_order4_Produced : Produced journey.order4.
Proof.
  apply (Produced_update "o1" RoleDriver "d1"
           (Some (UpdateStatusRequest.mk StatusPickedUp "")) 50
           sample.ready.2 sample.order3);
    [|vm_compute; reflexivity..].
  apply (Produced_update "o1" RoleRestaurant "r1"
           (Some (UpdateStatusRequest.mk StatusReadyForPickup "")) 40
           sample.preparing.2 journey.order2);
    [|vm_compute; reflexivity..].
  apply (Produced_update "o1" RoleRestaurant "r1"
           (Some (UpdateStatusRequest.mk StatusPreparing "")) 30
           sample.confirmed.2 sample.order1);
    [|vm_compute; reflexivity..].
  apply sample_order1_Produced.
Qed.

Lemma Produced_driver_witness :
  (∀ e, e ∈ Order.StatusHistory journey.order4 →
     StatusChange.ToStatus e = StatusPickedUp →
     StatusChange.ChangedBy e = Order.DriverID journey.order4)
  ∧ (Order.DriverID journey.order4 ≠ "" →
     ∃ e, e ∈ Order.StatusHistory journey.order4
       ∧ StatusChange.ToStatus e = StatusPickedUp
       ∧ StatusChange.ChangedBy e = Order.DriverID journey.order4
       ∧ StatusChange.Role e = RoleDriver).
Proof.
  apply (Produced_driver journey.order4). apply journey_order4_Produced.
Defined.

(** ** The handlers one after another *)

Lemma UpdateOrderStatus_quiet (id role userID : string)
    (r : UpdateStatusRequest.t) (now : Time) (w : World) (order : Order.t) :
  faults w = [] → orders w !! id = Some order →
  match ValidateTransition (Order.Status order)
          (UpdateStatusRequest.Status r) role with
  | Some err =>
      ∃ status, (status = http.StatusForbidden ∨ status = http.StatusBadRequest)
      ∧ handlers.UpdateOrderStatus id role userID (Some r) now w
        = (handlers.respondError status (Error err),
           mkWorld (users w) (orders w) (menuItems w) []
             (journal w ++ [FindOrder id]))
  | None =>
      ∃ order', accepted order role userID r now order'
      ∧ handlers.UpdateOrderStatus id role userID (Some r) now w
        = (handlers.respondJSON http.StatusOK (handlers.OrderBody order'),
           mkWorld (users w) (<[Order.ID order := order']> (orders w))
             (menuItems w) []
             (journal w ++ [FindOrder id; ReplaceOrder order']))
  end.
Proof.
  intros Hf Hlookup.
  assert ((GetOrder id w).1 = inl order) as Hget
    by (rewrite GetOrder_quiet by done; simpl; by rewrite Hlookup).
  pose proof (UpdateOrderStatus_run id role userID r now w order Hget) as Hrun.
  rewrite Hf in Hrun. simpl in Hrun. exact Hrun.
Qed.

(** X14. What the transitions endpoint lists is what the update endpoint
    accepts: for a stored order, a role that is not empty and no driver
    fault, the endpoint answers 200 with the order's status and a list of
    statuses, and a status is in the list exactly when a request for it by
    that role is answered 200. *)
Theorem GetAllowedTransitions_then_update (id role : string) (w : World)
    (order : Order.t) :
  faults w = [] → orders w !! id = Some order → role ≠ "" →
  ∃ allowed,
    (handlers.GetAllowedTransitions id role w).1
    = handlers.respondJSON http.StatusOK
        (handlers.TransitionsBody (Order.Status order) allowed)
    ∧ ∀ T driverID userID now,
        T ∈ allowed
        ↔ handlers.code
            (handlers.UpdateOrderStatus id role userID
               (Some (UpdateStatusRequest.mk T driverID)) now w).1
          = http.StatusOK.
Proof.
  intros Hf Hlookup Hrole.
  exists (statemachine.GetAllowedTransitions (Order.Status order) role). split.
  - unfold handlers.GetAllowedTransitions, mbind, DB_bind.
    rewrite GetOrder_quiet by done. by rewrite Hlookup.
  - intros T driverID userID now.
    rewrite (GetAllowedTransitions_accepts _ _ _ Hrole).
    pose proof (UpdateOrderStatus_quiet id role userID
                  (UpdateStatusRequest.mk T driverID) now w order Hf Hlookup)
      as Hrun.
    simpl in Hrun.
    destruct (ValidateTransition (Order.Status order) T role) as [e|].
    + destruct Hrun as (status & [-> | ->] & ->); by split.
    + destruct Hrun as (order' & _ & ->). by split.
Qed.

Lemma GetAllowedTransitions_then_update_witness :
  ∃ allowed,
    (handlers.GetAllowedTransitions "o1" RoleRestaurant sample.placed.2).1
    = handlers.respondJSON http.StatusOK
        (handlers.TransitionsBody (Order.Status sample.order0) allowed)
    ∧ ∀ T driverID userID now,
        T ∈ allowed
        ↔ handlers.code
            (handlers.UpdateOrderStatus "o1" RoleRestaurant userID
               (Some (UpdateStatusRequest.mk T driverID)) now
               sample.placed.2).1
          = http.StatusOK.
Proof.
  apply (GetAllowedTransitions_then_update "o1" RoleRestaurant sample.placed.2
           sample.order0).
  - vm_compute. reflexivity.
  - vm_compute. reflexivity.
  - compute_done.
Defined.



Lemma UpdateOrderStatus_loaded_dead_end (order : Order.t) (role userID : string)
    (r : UpdateStatusRequest.t) (now : Time) (w : World) :
  (∀ role', ValidateTransition (Order.Status order)
              (UpdateStatusRequest.Status r) role' ≠ None) →
  ∃ message,
    handlers.UpdateOrderStatus_loaded order role userID (Some r) now w
    = (handlers.respondError http.StatusBadRequest message, w).
Proof.
  intros Hnone. unfold handlers.UpdateOrderStatus_loaded.
  destruct (ValidateTransition _ _ role) as [e|] eqn:Hvalid;
    [|by apply Hnone in Hvalid].
  exists (Error e).
  pose proof (Hnone RoleCustomer). pose proof (Hnone RoleRestaurant).
  pose proof (Hnone RoleDriver).
  repeat match goal with
    | |- context [ValidateTransition ?a ?b ?c] =>
        destruct (ValidateTransition a b c)
    end; done.
Qed.

(** X16. A request that has been answered 200 and is sent again is answered
    400 and changes nothing, if every order is stored under its own id and no
    driver call fails: the order is now in the requested status, and no
    transition leads from a status to itself. *)
Theorem UpdateOrderStatus_retry (id role userID : string)
    (r : UpdateStatusRequest.t) (now now' : Time) (w : World)
    (order order' : Order.t) :
  keyed w → faults w = [] → orders w !! id = Some order →
  (handlers.UpdateOrderStatus id role userID (Some r) now w).1
  = handlers.respondJSON http.StatusOK (handlers.OrderBody order') →
  let w' := (handlers.UpdateOrderStatus id role userID (Some r) now w).2 in
  let '(again, w'') :=
    handlers.UpdateOrderStatus id role userID (Some r) now' w' in
  handlers.code again = http.StatusBadRequest
  ∧ orders w'' = orders w'
  ∧ orders w'' !! id = Some order'.
Proof.
  intros Hk Hf Hlookup H.
  pose proof (UpdateOrderStatus_quiet id role userID r now w order Hf Hlookup)
    as Hrun.
  destruct (ValidateTransition _ _ role) as [e|].
  { destruct Hrun as (status & _ & Hrun). rewrite Hrun in H. by injection H. }
  destruct Hrun as (o & Hacc & Hrun).
  rewrite Hrun in H |- *. simpl in H. injection H as ->.
  cbv zeta. cbn [snd].
  unfold handlers.UpdateOrderStatus at 1, mbind, DB_bind.
  rewrite GetOrder_quiet by done. cbn [orders].
  rewrite (Hk id order Hlookup), lookup_insert_eq. cbn beta iota.
  destruct Hacc as (_ & _ & _ & _ & _ & _ & Hstatus & _).
  match goal with
  | |- context [handlers.UpdateOrderStatus_loaded order' role userID (Some r)
                  now' ?w0] =>
      destruct (UpdateOrderStatus_loaded_dead_end order' role userID r now' w0)
        as (message & ->)
  end.
  { intros role' Hself%accepted_rank. rewrite Hstatus in Hself. lia. }
  simpl. by rewrite lookup_insert_eq.
Qed.

Lemma UpdateOrderStatus_retry_witness :
  let w' :=
    (handlers.UpdateOrderStatus "o1" RoleRestaurant "r1"
       (Some (UpdateStatusRequest.mk StatusConfirmed "")) 20
       sample.placed.2).2 in
  let '(again, w'') :=
    handlers.UpdateOrderStatus "o1" RoleRestaurant "r1"
      (Some (UpdateStatusRequest.mk StatusConfirmed "")) 21 w' in
  handlers.code again = http.StatusBadRequest
  ∧ orders w'' = orders w'
  ∧ orders w'' !! "o1" = Some sample.order1.
Proof.
  apply (UpdateOrderStatus_retry "o1" RoleRestaurant "r1"
           (UpdateStatusRequest.mk StatusConfirmed "") 20 21
           sample.placed.2 sample.order0 sample.order1).
  - apply sample_placed_keyed.
  - vm_compute. reflexivity.
  - vm_compute. reflexivity.
  - vm_compute. reflexivity.
Defined.

(** ** What interleaving cannot break *)

Lemma sound_accepted (order order' : Order.t) (role userID : string)
    (r : UpdateStatusRequest.t) (now : Time) :
  sound order →
  ValidateTransition (Order.Status order)
    (UpdateStatusRequest.Status r) role = None →
  accepted order role userID r now order' →
  sound order'.
Proof.
  intros [(e & rest & Hh & Hfrom & Hto & Hrole & Hlegal) Hlast] Hvalid Hacc.
  destruct Hacc as (_ & _ & _ & _ & _ & _ & Hstatus & Hh' & _).
  split.
  - exists e, (rest ++ [StatusChange.mk (Order.Status order)
                          (UpdateStatusRequest.Status r) userID role now]).
    rewrite Hh', Hh. split_and!; try done.
    apply legalFrom_snoc. simpl.
    assert (default StatusPlaced (StatusChange.ToStatus <$> last rest)
            = Order.Status order) as ->.
    { rewrite Hh, last_cons in Hlast.
      destruct (last rest) as [y|]; simpl in *; congruence. }
    by split_and!.
  - by rewrite Hh', last_snoc, Hstatus.
Qed.

Lemma step_sound (g : server.Goroutine) (w : World) :
  (∀ k o, orders w !! k = Some o → sound o) →
  (∀ r o, g = server.Loaded r o → sound o) →
  (∀ k o, orders (server.step g w).2 !! k = Some o → sound o)
  ∧ (∀ r o, (server.step g w).1 = server.Loaded r o → sound o).
Proof.
  intros Hstore Hheld.
  destruct g as [r | r order | response]; simpl; unfold mbind, DB_bind.
  - pose proof (GetOrder_frame (server.id r) w) as (_ & Ho & _).
    destruct (GetOrder (server.id r) w) as [[order|err] w1] eqn:Hget;
      simpl in *; (split; [intros k o; rewrite Ho; apply Hstore|]).
    + intros r' o [= _ <-].
      assert ((GetOrder (server.id r) w).1 = inl order) as Hfst
        by by rewrite Hget.
      apply GetOrder_inl in Hfst as [Hlookup _]. by apply (Hstore _ _ Hlookup).
    + by intros ? ? [=].
  - specialize (Hheld r order eq_refl).
    unfold handlers.UpdateOrderStatus_loaded.
    destruct (server.req r) as [q|]; [|by split; [apply Hstore | intros ? ? [=]]].
    destruct (ValidateTransition _ _ (server.role r)) as [e|] eqn:Hvalid.
    + repeat match goal with
        | |- context [ValidateTransition ?a ?b ?c] =>
            destruct (ValidateTransition a b c)
        end; (split; [apply Hstore | by intros ? ? [=]]).
    + destruct (UpdateOrderStatus_loaded_accept order (server.role r)
                  (server.userID r) q (server.now r)
                  (mkWorld (users w) (orders w) (menuItems w) [] (journal w))
                  Hvalid eq_refl) as (order' & Hacc & _).
      pose proof (sound_accepted order order' _ _ q _ Hheld Hvalid Hacc)
        as Hsound'.
      cbv zeta. unfold mbind, DB_bind.
      set (saved := Order.setUpdatedAt (server.now r) _).
      assert (saved = order') as ->.
      { destruct Hacc as (? & ? & ? & Hd & ? & ? & ? & ? & ? & ? & ?).
        destruct order'. unfold saved. simpl in *. subst.
        by case_decide. }
      rewrite SaveOrder_run.
      destruct (head (faults w)) as [[?|]|]; simpl;
        (split; [|by intros ? ? [=]]); try apply Hstore;
        intros k o; (destruct (decide (Order.ID order' = k)) as [<-|Hne];
          [rewrite lookup_insert_eq; by intros [= <-]
          |rewrite lookup_insert_ne by done; apply Hstore]).
  - split; [apply Hstore | by intros ? ? [=]].
Qed.

Lemma run_sound (schedule : list nat) (gs : list server.Goroutine) (w : World) :
  (∀ k o, orders w !! k = Some o → sound o) →
  (∀ r o, server.Loaded r o ∈ gs → sound o) →
  ∀ k o, orders (server.run schedule gs w).2 !! k = Some o → sound o.
Proof.
  revert gs w. induction schedule as [|i rest IH]; intros gs w Hstore Hheld;
    simpl; [done|].
  destruct (gs !! i) as [g|] eqn:Hg; [|by apply IH].
  unfold mbind, DB_bind.
  destruct (step_sound g w Hstore) as [Hstore' Hheld'].
  { intros r o ->. apply (Hheld r o). by apply list_elem_of_lookup_2 in Hg. }
  destruct (server.step g w) as [g' w1]. simpl in *. apply IH; [done|].
  intros r o [j Hj]%list_elem_of_lookup_1.
  apply list_lookup_insert_Some in Hj as [(_ & -> & _) | (_ & Hj)].
  - by apply (Hheld' r o).
  - apply (Hheld r o). by apply list_elem_of_lookup_2 in Hj.
Qed.

(** X17. Whatever the schedule, status updates served at once never store
    an order with an illegal history: if the history of every stored order,
    and of every order a goroutine has read, is legal and ends in the order's
    status, the same holds of every order stored afterwards. *)
Theorem run_keeps_sound (schedule : list nat) (gs : list server.Goroutine)
    (w : World) :
  (∀ k o, orders w !! k = Some o → sound o) →
  (∀ r o, server.Loaded r o ∈ gs → sound o) →
  ∀ k o, orders (server.run schedule gs w).2 !! k = Some o → sound o.
Proof. apply run_sound. Qed.

Lemma Produced_sound (order : Order.t) : Produced order → sound order.
Proof.
  intros (e & rest & Hh & ? & Hto & ? & _ & _ & Hlegal & Hstatus & _)%Produced_legal.
  split; [rewrite Hh; by exists e, rest|].
  rewrite Hh, last_cons, Hstatus.
  destruct (last rest) as [y|]; simpl; by rewrite ?Hto.
Qed.

Lemma sample_confirmed_orders :
  orders sample.confirmed.2 = <[ "o1" := sample.order1 ]> ∅.
Proof. vm_compute. reflexivity. Qed.

Lemma run_keeps_sound_witness :
  map_Forall (λ _ o, sound o)
    (orders (server.run [0; 1; 0; 1]%nat
               [server.Serving sample.prepare; server.Serving sample.cancel]
               sample.confirmed.2).2).
Proof.
  refine (run_keeps_sound [0; 1; 0; 1]%nat
            [server.Serving sample.prepare; server.Serving sample.cancel]
            sample.confirmed.2 _ _).
  - intros k o. rewrite sample_confirmed_orders.
    destruct (decide (k = "o1")) as [->|Hne].
    + rewrite lookup_insert_eq. intros [= <-].
      apply Produced_sound, sample_order1_Produced.
    + by rewrite lookup_insert_ne, lookup_empty.
  - intros r o Hin.
    repeat (apply elem_of_cons in Hin as [Hin|Hin]; [discriminate Hin|]).
    by apply elem_of_nil in Hin.
Defined.

(** ** Users and menus *)

Lemma IsValid_elem_of (r : Role) :
  IsValid r = true ↔ r ∈ [RoleCustomer; RoleRestaurant; RoleDriver].
Proof.
  unfold IsValid. rewrite !elem_of_cons, elem_of_nil.
  repeat case_decide; split; intros Hv; try done; auto;
    by destruct Hv as [|[|[|]]].
Qed.

Lemma driver_frame (w : World) :
  users (store.driver w).2 = users w
  ∧ orders (store.driver w).2 = orders w
  ∧ menuItems (store.driver w).2 = menuItems w.
Proof. unfold store.driver. by destruct (faults w). Qed.

Lemma RegisterUser_effect (req : option rest.CreateUserRequest.t)
    (newID : string) (w : World) :
  let '(response, w') := rest.RegisterUser req newID w in
  orders w' = orders w
  ∧ menuItems w' = menuItems w
  ∧ (rest.code response ≠ http.StatusCreated → users w' = users w)
  ∧ (rest.code response = http.StatusCreated →
     ∃ r, req = Some r
       ∧ rest.CreateUserRequest.Name r ≠ ""
       ∧ rest.CreateUserRequest.Role r
         ∈ [RoleCustomer; RoleRestaurant; RoleDriver]
       ∧ rest.body response
         = rest.UserBody (User.mk newID (rest.CreateUserRequest.Name r)
                            (rest.CreateUserRequest.Role r))
       ∧ users w'
         = <[newID := User.mk newID (rest.CreateUserRequest.Name r)
                        (rest.CreateUserRequest.Role r)]> (users w)).
Proof.
  unfold rest.RegisterUser. destruct req as [r|]; [|by split_and!].
  case_decide as Hname; [by split_and!|].
  destruct (IsValid (rest.CreateUserRequest.Role r)) eqn:Hvalid; simpl;
    [|by split_and!].
  apply IsValid_elem_of in Hvalid.
  unfold store.SaveUser, store.replaceUser, mbind, DB_bind, mret, DB_ret.
  pose proof (driver_frame w) as (Hu & Ho & Hm).
  destruct (store.driver w) as [[err|] w1]; simpl in *.
  - split_and!; try done; by intros [=].
  - split_and!; try done. intros _. exists r. split_and!; try done.
    by rewrite Hu.
Qed.

(** X18. Registration stores a user only when it answers 201, and then the
    user has the new id, a name that is not empty and one of the three
    roles; it never touches the orders or the menu items. *)
Theorem RegisterUser_valid (req : option rest.CreateUserRequest.t)
    (newID : string) (w : World) :
  let '(response, w') := rest.RegisterUser req newID w in
  orders w' = orders w
  ∧ menuItems w' = menuItems w
  ∧ (rest.code response ≠ http.StatusCreated → users w' = users w)
  ∧ (rest.code response = http.StatusCreated →
     ∃ r, req = Some r
       ∧ rest.CreateUserRequest.Name r ≠ ""
       ∧ rest.CreateUserRequest.Role r
         ∈ [RoleCustomer; RoleRestaurant; RoleDriver]
       ∧ rest.body response
         = rest.UserBody (User.mk newID (rest.CreateUserRequest.Name r)
                            (rest.CreateUserRequest.Role r))
       ∧ users w'
         = <[newID := User.mk newID (rest.CreateUserRequest.Name r)
                        (rest.CreateUserRequest.Role r)]> (users w)).
Proof. apply RegisterUser_effect. Qed.

(** X19. A menu item is stored only when the handler answers 201, and then
    the caller has the role restaurant and is the restaurant of the path; the
    item has the new id, belongs to that restaurant, is available, has a name
    and a category that are not empty, and a price that is not at most zero.
    The users and the orders are never touched. *)
Theorem AddMenuItem_owner (restaurantID role userID : string)
    (req : option rest.CreateMenuItemRequest.t) (newID : string) (w : World) :
  let '(response, w') := rest.AddMenuItem restaurantID role userID req newID w in
  users w' = users w
  ∧ orders w' = orders w
  ∧ (rest.code response ≠ http.StatusCreated → menuItems w' = menuItems w)
  ∧ (rest.code response = http.StatusCreated →
     role = RoleRestaurant ∧ userID = restaurantID
     ∧ ∃ item, rest.body response = rest.MenuItemBody item
         ∧ menuItems w' = <[newID := item]> (menuItems w)
         ∧ MenuItem.ID item = newID
         ∧ MenuItem.RestaurantID item = restaurantID
         ∧ MenuItem.Available item = true
         ∧ MenuItem.Name item ≠ ""
         ∧ MenuItem.Category item ≠ ""
         ∧ PrimFloat.leb (MenuItem.Price item) PrimFloat.zero = false).
Proof.
  unfold rest.AddMenuItem.
  case_decide as Hrole; [by split_and!|].
  case_decide as Huser; [by split_and!|].
  destruct req as [r|]; [|by split_and!].
  case_decide as Hname; [by split_and!|].
  destruct (PrimFloat.leb _ _) eqn:Hprice; [by split_and!|].
  cbv zeta.
  unfold store.SaveMenuItem, store.replaceMenuItem, mbind, DB_bind, mret, DB_ret.
  pose proof (driver_frame w) as (Hu & Ho & Hm).
  destruct (store.driver w) as [[err|] w1]; simpl in *.
  - split_and!; try done; by intros [=].
  - split_and!; try done. intros _.
    split; [by destruct (decide (role = RoleRestaurant)); [|exfalso; auto]|].
    split; [by destruct (decide (userID = restaurantID)); [|exfalso; auto]|].
    eexists. split_and!; try reflexivity; try done.
    + by rewrite Hm.
    + simpl. by case_decide.
Qed.

Lemma DeleteMenuItem_effect (restaurantID itemID role userID : string)
    (w : World) :
  let '(response, w') := rest.DeleteMenuItem restaurantID itemID role userID w in
  users w' = users w
  ∧ orders w' = orders w
  ∧ (rest.code response ≠ http.StatusOK → menuItems w' = menuItems w)
  ∧ (rest.code response = http.StatusOK →
     role = RoleRestaurant ∧ userID = restaurantID
     ∧ (∃ item, menuItems w !! itemID = Some item
          ∧ MenuItem.RestaurantID item = restaurantID)
     ∧ menuItems w' !! itemID = None
     ∧ ∀ k, k ≠ itemID → menuItems w' !! k = menuItems w !! k).
Proof.
  unfold rest.DeleteMenuItem.
  case_decide as Hauth; [by split_and!|].
  unfold mbind, DB_bind.
  pose proof (GetMenuItem_frame itemID w) as (Hu & Ho & Hm & Hitem).
  destruct (GetMenuItem itemID w) as [[item|err] w1]; simpl in *;
    [|by split_and!].
  case_decide as Hown; [by split_and!|].
  unfold store.DeleteMenuItem, store.deleteMenuItem, mbind, DB_bind, mret, DB_ret.
  pose proof (driver_frame w1) as (Hu' & Ho' & Hm').
  destruct (store.driver w1) as [[err|] w2]; simpl in *.
  - split_and!; try congruence; by intros [=].
  - split_and!; [congruence | congruence | done |]. intros _.
    assert (role = RoleRestaurant ∧ userID = restaurantID) as [-> ->].
    { destruct (decide (role = RoleRestaurant)),
               (decide (userID = restaurantID)); try done;
        exfalso; apply Hauth; auto. }
    split_and!; try done.
    + exists item. split; [by apply Hitem|].
      by destruct (decide (MenuItem.RestaurantID item = restaurantID));
        [|exfalso; auto].
    + by rewrite lookup_delete_eq.
    + intros k Hk. rewrite lookup_delete_ne by done. by rewrite Hm', Hm.
Qed.

(** X20. A menu item is deleted only when the handler answers 200, and then
    the caller has the role restaurant and is the restaurant of the path, and
    the item was stored and belonged to that restaurant; afterwards no item
    is stored under that id, and every other item is as before. *)
Theorem DeleteMenuItem_owner (restaurantID itemID role userID : string)
    (w : World) :
  let '(response, w') := rest.DeleteMenuItem restaurantID itemID role userID w in
  users w' = users w
  ∧ orders w' = orders w
  ∧ (rest.code response ≠ http.StatusOK → menuItems w' = menuItems w)
  ∧ (rest.code response = http.StatusOK →
     role = RoleRestaurant ∧ userID = restaurantID
     ∧ (∃ item, menuItems w !! itemID = Some item
          ∧ MenuItem.RestaurantID item = restaurantID)
     ∧ menuItems w' !! itemID = None
     ∧ ∀ k, k ≠ itemID → menuItems w' !! k = menuItems w !! k).
Proof. apply DeleteMenuItem_effect. Qed.

(** X21. Once a menu item has been deleted, no order that asks for it is
    created: whatever the caller and the rest of the request, order creation
    does not answer 201. *)
Theorem CreateOrder_after_delete (restaurantID itemID role userID : string)
    (w : World) :
  rest.code (rest.DeleteMenuItem restaurantID itemID role userID w).1
  = http.StatusOK →
  ∀ role' userID' r newID now,
    itemID ∈ OrderItemRequest.MenuItemID <$> CreateOrderFromMenuRequest.Items r →
    handlers.code
      (handlers.CreateOrder role' userID' (Some r) newID now
         (rest.DeleteMenuItem restaurantID itemID role userID w).2).1
    ≠ http.StatusCreated.
Proof.
  intros Hdel role' userID' r newID now Hin Hcreated.
  pose proof (DeleteMenuItem_effect restaurantID itemID role userID w) as H.
  destruct (rest.DeleteMenuItem restaurantID itemID role userID w)
    as [response w'].
  simpl in *. destruct H as (_ & _ & _ & Hyes).
  destruct (Hyes Hdel) as (_ & _ & _ & Hgone & _).
  pose proof (CreateOrder_effect role' userID' (Some r) newID now w') as Hc.
  destruct (handlers.CreateOrder role' userID' (Some r) newID now w')
    as [created w''].
  simpl in *. destruct Hc as (_ & _ & _ & Hyes').
  destruct (Hyes' Hcreated)
    as (r' & ? & orderItems & _ & [= <-] & _ & _ & _ & _ & Hall & _).
  apply list_elem_of_fmap in Hin as (ri & -> & Hri).
  apply list_elem_of_lookup_1 in Hri as [i Hi].
  destruct (Forall2_lookup_l _ _ _ _ _ Hall Hi) as (oi & _ & _ & m & Hm & _).
  congruence.
Qed.

Lemma CreateOrder_after_delete_witness :
  handlers.code
    (handlers.CreateOrder RoleCustomer "c1" (Some sample.menuRequest) "o1" 10
       (rest.DeleteMenuItem "r1" "m1" RoleRestaurant "r1" sample.empty).2).1
  ≠ http.StatusCreated.
Proof.
  apply (CreateOrder_after_delete "r1" "m1" RoleRestaurant "r1" sample.empty).
  - vm_compute. reflexivity.
  - compute_done.
Defined.

(** ** The listings *)

Lemma values_elem_of {A} (m : gmap string A) (x : A) :
  x ∈ (map_to_list m).*2 ↔ ∃ k, m !! k = Some x.
Proof.
  rewrite list_elem_of_fmap. split.
  - intros ([k y] & -> & Hin). exists k. by apply elem_of_map_to_list.
  - intros [k Hk]. exists (k, x). split; [done|]. by apply elem_of_map_to_list.
Qed.

Lemma ListOrders_run (statusFilter : string) (w : World) :
  let '(response, w') := rest.ListOrders statusFilter w in
  users w' = users w ∧ orders w' = orders w ∧ menuItems w' = menuItems w
  ∧ match head (faults w) with
    | Some (Some _) => rest.code response = http.StatusInternalServerError
    | _ =>
        ∃ l, response = rest.respondJSON http.StatusOK (rest.OrdersBody l)
          ∧ ∀ o, o ∈ l
              ↔ (∃ k, orders w !! k = Some o)
                ∧ (statusFilter = "" ∨ Order.Status o = statusFilter)
    end.
Proof.
  unfold rest.ListOrders, store.ListOrders, store.driver, read, mbind, DB_bind,
    mret, DB_ret.
  assert (∀ o, o ∈ (if decide (statusFilter ≠ "")
                    then filter (λ o, Order.Status o = statusFilter)
                           (map_to_list (orders w)).*2
                    else (map_to_list (orders w)).*2)
               ↔ (∃ k, orders w !! k = Some o)
                 ∧ (statusFilter = "" ∨ Order.Status o = statusFilter)) as Hl.
  { intros o. case_decide as Hf.
    - rewrite list_elem_of_filter, values_elem_of.
      split; [intros [? ?]; auto | intros [? [?|?]]; done].
    - rewrite values_elem_of.
      destruct (decide (statusFilter = "")); [|done].
      split; [auto | by intros [? _]]. }
  destruct (faults w) as [|[err|] rest]; simpl; split_and!; try done;
    by eexists.
Qed.

(** X22. The order listing writes nothing. Unless the driver call fails,
    which is answered 500, it answers 200 with exactly the stored orders when
    the filter is empty, and exactly the stored orders in the status of the
    filter otherwise; a filter that is no status gives the empty list. *)
Theorem ListOrders_lists (statusFilter : string) (w : World) :
  let '(response, w') := rest.ListOrders statusFilter w in
  users w' = users w ∧ orders w' = orders w ∧ menuItems w' = menuItems w
  ∧ match head (faults w) with
    | Some (Some _) => rest.code response = http.StatusInternalServerError
    | _ =>
        ∃ l, response = rest.respondJSON http.StatusOK (rest.OrdersBody l)
          ∧ ∀ o, o ∈ l
              ↔ (∃ k, orders w !! k = Some o)
                ∧ (statusFilter = "" ∨ Order.Status o = statusFilter)
    end.
Proof. apply ListOrders_run. Qed.



(** X24. The menu endpoint writes nothing. Unless the driver call fails,
    which is answered 500, it answers 200 with exactly the stored items of
    the restaurant of the path, available or not; an id that is no
    restaurant's gives the empty menu. *)
Theorem GetMenu_lists (restaurantID : string) (w : World) :
  let '(response, w') := rest.GetMenu restaurantID w in
  users w' = users w ∧ orders w' = orders w ∧ menuItems w' = menuItems w
  ∧ match head (faults w) with
    | Some (Some _) => rest.code response = http.StatusInternalServerError
    | _ =>
        ∃ l, response = rest.respondJSON http.StatusOK (rest.MenuBody l)
          ∧ ∀ i, i ∈ l
              ↔ (∃ k, menuItems w !! k = Some i)
                ∧ MenuItem.RestaurantID i = restaurantID
    end.
Proof.
  unfold rest.GetMenu, store.ListMenuItems, store.driver, read, mbind, DB_bind,
    mret, DB_ret.
  assert (∀ i, i ∈ filter (λ i, MenuItem.RestaurantID i = restaurantID)
                     (map_to_list (menuItems w)).*2
               ↔ (∃ k, menuItems w !! k = Some i)
                 ∧ MenuItem.RestaurantID i = restaurantID) as Hl.
  { intros i. rewrite list_elem_of_filter, values_elem_of. tauto. }
  destruct (faults w) as [|[err|] rest]; simpl; split_and!; try done;
    by eexists.
Qed.

Lemma ListUsers_quiet (roleFilter : string) (w : World) :
  faults w = [] →
  ∃ l, rest.ListUsers roleFilter w
       = (rest.respondJSON http.StatusOK (rest.UsersBody l), w)
    ∧ ∀ u, u ∈ l
        ↔ (∃ k, users w !! k = Some u)
          ∧ (roleFilter = "" ∨ User.Role u = roleFilter).
Proof.
  intros Hf.
  unfold rest.ListUsers, store.ListUsers, store.driver, read, mbind, DB_bind,
    mret, DB_ret.
  rewrite Hf. eexists. split; [reflexivity|].
  intros u. case_decide as Hfilter.
  - rewrite list_elem_of_filter, values_elem_of.
    split; [intros [? ?]; auto | intros [? [?|?]]; done].
  - rewrite values_elem_of.
    destruct (decide (roleFilter = "")); [|done].
    split; [auto | by intros [? _]].
Qed.

(** X25. A user whose registration is answered 201 can be read back when no
    driver call fails: the user endpoint returns the user under the new id,
    and the user listing contains the user both without a filter and under
    the user's role. *)
Theorem RegisterUser_read_back (r : rest.CreateUserRequest.t) (newID : string)
    (w : World) (user : User.t) :
  faults w = [] →
  (rest.RegisterUser (Some r) newID w).1
  = rest.respondJSON http.StatusCreated (rest.UserBody user) →
  let w' := (rest.RegisterUser (Some r) newID w).2 in
  (rest.GetUser newID w').1 = rest.respondJSON http.StatusOK (rest.UserBody user)
  ∧ ∀ roleFilter, roleFilter = "" ∨ roleFilter = User.Role user →
      ∃ l, (rest.ListUsers roleFilter w').1
           = rest.respondJSON http.StatusOK (rest.UsersBody l)
        ∧ user ∈ l.
Proof.
  intros Hf H.
  pose proof (RegisterUser_effect (Some r) newID w) as Hreg.
  assert (faults (rest.RegisterUser (Some r) newID w).2 = []) as Hf'.
  { unfold rest.RegisterUser. repeat case_decide; try done.
    destruct (IsValid _); simpl; [|done].
    unfold store.SaveUser, store.replaceUser, store.driver, mbind, DB_bind,
      mret, DB_ret. by rewrite Hf. }
  destruct (rest.RegisterUser (Some r) newID w) as [response w'].
  simpl in *. subst response. destruct Hreg as (_ & _ & _ & Hyes).
  destruct (Hyes eq_refl) as (r' & _ & _ & _ & [= ->] & Hu).
  assert (users w' !! newID
          = Some (User.mk newID (rest.CreateUserRequest.Name r')
                    (rest.CreateUserRequest.Role r'))) as Hstored
    by by rewrite Hu, lookup_insert_eq.
  split.
  - unfold rest.GetUser, GetUser, call, read, mbind, DB_bind, mret, DB_ret.
    rewrite Hf'. simpl. by rewrite Hstored.
  - intros roleFilter Hfilter.
    destruct (ListUsers_quiet roleFilter w' Hf') as (l & -> & Hl).
    exists l. split; [done|]. apply Hl. split; [by exists newID|].
    destruct Hfilter as [->| ->]; auto.
Qed.

Lemma RegisterUser_read_back_witness :
  let w' :=
    (rest.RegisterUser (Some (rest.CreateUserRequest.mk "Eve" RoleDriver)) "d2"
       sample.empty).2 in
  (rest.GetUser "d2" w').1
  = rest.respondJSON http.StatusOK
      (rest.UserBody (User.mk "d2" "Eve" RoleDriver))
  ∧ ∀ roleFilter,
      roleFilter = "" ∨ roleFilter = User.Role (User.mk "d2" "Eve" RoleDriver) →
      ∃ l, (rest.ListUsers roleFilter w').1
           = rest.respondJSON http.StatusOK (rest.UsersBody l)
        ∧ User.mk "d2" "Eve" RoleDriver ∈ l.
Proof.
  apply (RegisterUser_read_back (rest.CreateUserRequest.mk "Eve" RoleDriver)
           "d2" sample.empty (User.mk "d2" "Eve" RoleDriver)).
  - vm_compute. reflexivity.
  - vm_compute. reflexivity.
Defined.
